(** * ti-basic-autocomplete: the language server of [server/src/server.ts]

    A shallow embedding of the server's handlers: the two regular-expression
    scans that produce diagnostics, the per-document settings cache, and the
    completion handlers.

    - A document text is a JavaScript string, modelled as the list of its
      UTF-16 code units ([list Z]); offsets into it are [nat], offsets handed
      to [positionAt] are [Z] because the code subtracts one from a match
      index.
    - The two [RegExp] literals are values of a small regex syntax whose
      matcher backtracks the way ECMAScript's does; [exec] is the global-flag
      search from [lastIndex].
    - The [while] loops are defined by well-founded recursion on the distance
      of [problems] to the loop's limit.
    - The server's mutable variables are the fields of [Server]; a handler is
      a function from the state to the next state, which also appends what it
      sends to the client to [outbox]. *)

From Stdlib Require Import ZArith List Bool String Ascii Lia Sorted.
From stdpp Require Import gmap strings list fin_maps.
From Equations Require Import Equations.
Import ListNotations.

#[local] Set Warnings "-clear-no-such-hyp".

(** ** Texts *)

(** The code units of an ASCII string literal. *)
Fixpoint utf16 (s : string) : list Z :=
  match s with
  | EmptyString => []
  | String a s' => Z.of_nat (nat_of_ascii a) :: utf16 s'
  end.

(** [text.substring(from, to)] for [from <= to]. *)
Definition slice (text : list Z) (from to : nat) : list Z :=
  firstn (to - from) (skipn from text).

(** ** Character classes of the two patterns *)

(** [[A-Z]] *)
Definition isUpper (c : Z) : bool := ((65 <=? c) && (c <=? 90))%Z.

(** The word characters of [\b]: [[A-Za-z0-9_]]. *)
Definition isWordChar (c : Z) : bool :=
  (isUpper c || ((97 <=? c) && (c <=? 122)) || ((48 <=? c) && (c <=? 57))
   || (c =? 95))%Z.

(** [\s]: ECMAScript WhiteSpace and LineTerminator code units. *)
Definition isWhiteSpace (c : Z) : bool :=
  (((9 <=? c) && (c <=? 13)) || (c =? 32) || (c =? 160) || (c =? 5760)
   || ((8192 <=? c) && (c <=? 8202)) || (c =? 8232) || (c =? 8233)
   || (c =? 8239) || (c =? 8287) || (c =? 12288) || (c =? 65279))%Z.

(** The class [[>|<|+|\-|*|→|≤|≥|≠]]: inside brackets the bar is a literal
    character, so the class holds [|] next to the nine operators. *)
Definition isOperatorClass (c : Z) : bool :=
  ((c =? 62) || (c =? 124) || (c =? 60) || (c =? 43) || (c =? 45)
   || (c =? 42) || (c =? 8594) || (c =? 8804) || (c =? 8805)
   || (c =? 8800))%Z.

(** ** Regular expressions *)

Inductive regex : Type :=
| WordBoundary                               (* \b *)
| CharSet (p : Z -> bool)                    (* \s, [...] *)
| Repeat (min : nat) (p : Z -> bool)         (* [...]{min,}, greedy *)
| Seq (r1 r2 : regex).

Definition isWordAt (text : list Z) (i : nat) : bool :=
  match nth_error text i with
  | Some c => isWordChar c
  | None => false
  end.

(** [\b] holds at [i] when exactly one of the code units before and at [i]
    is a word character; outside the text there is none. *)
Definition atBoundary (text : list Z) (i : nat) : bool :=
  xorb (match i with O => false | S j => isWordAt text j end)
       (isWordAt text i).

(** Length of the longest prefix of [text] whose units satisfy [p]. *)
Fixpoint runLength (p : Z -> bool) (text : list Z) : nat :=
  match text with
  | c :: rest => if p c then S (runLength p rest) else 0
  | [] => 0
  end.

(** Greedy backtracking: try [k count] for [count = j, j-1, ..., min]. *)
Fixpoint tryDown (j min : nat) (k : nat -> option nat) : option nat :=
  if j <? min then None
  else match k j with
       | Some e => Some e
       | None => match j with
                 | O => None
                 | S j' => tryDown j' min k
                 end
       end.

(** [rmatch r text i k]: match [r] at offset [i], then the continuation [k]
    at the offset reached; the result is the end offset of the whole match. *)
Fixpoint rmatch (r : regex) (text : list Z) (i : nat)
         (k : nat -> option nat) : option nat :=
  match r with
  | WordBoundary => if atBoundary text i then k i else None
  | CharSet p =>
      match nth_error text i with
      | Some c => if p c then k (S i) else None
      | None => None
      end
  | Repeat min p =>
      tryDown (runLength p (skipn i text)) min (fun count => k (i + count))
  | Seq r1 r2 => rmatch r1 text i (fun j => rmatch r2 text j k)
  end.

(** Leftmost match at an offset in [i, i + n]. *)
Fixpoint search (r : regex) (text : list Z) (i n : nat) : option (nat * nat) :=
  match rmatch r text i Some with
  | Some e => Some (i, e)
  | None => match n with
            | O => None
            | S n' => search r text (S i) n'
            end
  end.

(** [pattern.exec(text)] of a global pattern whose [lastIndex] is
    [lastIndex]: [Some (index, e)] is the match [text.substring(index, e)],
    after which [lastIndex] is [e]; [None] is JavaScript's [null]. *)
Definition exec (pattern : regex) (text : list Z) (lastIndex : nat)
  : option (nat * nat) :=
  if lastIndex <=? length text
  then search pattern text lastIndex (length text - lastIndex)
  else None.

(** [/\b\s[>|<|+|\-|*|→|≤|≥|≠]\s\b/g] of [documents.onDidChangeContent]. *)
Definition operatorPattern : regex :=
  Seq WordBoundary
      (Seq (CharSet isWhiteSpace)
           (Seq (CharSet isOperatorClass)
                (Seq (CharSet isWhiteSpace) WordBoundary))).

(** [/\b[A-Z]{2,}\b/g] of [validateTextDocument]. *)
Definition uppercasePattern : regex :=
  Seq WordBoundary (Seq (Repeat 2 isUpper) WordBoundary).


(** ** Diagnostics *)

Inductive DiagnosticSeverity : Set := Error | Warning.

Record Position : Set := { line : nat; character : nat }.

Record Range : Set := { start : Position; end_ : Position }.

Record Diagnostic : Set := {
  severity : DiagnosticSeverity;
  range : Range;
  message : list Z;
  source : string
}.

(** The line starts after each end of line of [text], [offset] being the
    offset of its first unit; a carriage return followed by a line feed is
    one end of line. *)
Fixpoint lineStarts (text : list Z) (offset : nat) : list nat :=
  match text with
  | [] => []
  | c :: rest =>
      if (c =? 13)%Z then
        match rest with
        | d :: rest' =>
            if (d =? 10)%Z
            then S (S offset) :: lineStarts rest' (S (S offset))
            else S offset :: lineStarts rest (S offset)
        | [] => [S offset]
        end
      else if (c =? 10)%Z then S offset :: lineStarts rest (S offset)
      else lineStarts rest (S offset)
  end.

(** [ensureBeforeEOL]: an offset that follows a line break of its own line
    (the place between a carriage return and its line feed) moves back
    before the break. *)
Fixpoint ensureBeforeEOL (text : list Z) (lineOffset offset : nat) : nat :=
  match offset with
  | O => O
  | S before =>
      if (lineOffset <? offset)
         && match nth_error text before with
            | Some c => ((c =? 13) || (c =? 10))%Z
            | None => false
            end
      then ensureBeforeEOL text lineOffset before
      else offset
  end.

(** Line and column of an offset inside the text, as
    [TextDocument.positionAt] of vscode-languageserver-textdocument 1.0.12
    computes them from a clamped offset: the line is that of the last line
    start that is not after the offset, the column the distance to it from
    the offset moved before the line's break. Used to evaluate examples; the
    theorems hold for every such mapping. *)
Definition lineColumn (text : list Z) (offset : nat) : Position :=
  let before := List.filter (fun o => o <=? offset) (0 :: lineStarts text 0) in
  let lineOffset := List.last before 0 in
  {| line := length before - 1;
     character := ensureBeforeEOL text lineOffset offset - lineOffset |}.

Section Scans.

(** [TextDocument.positionAt] is the text-document library's. The handlers
    rely on one thing only: it first clamps the offset into
    [0, text.length]; how a clamped offset becomes a line and a column is
    left to [position_of]. *)
Variable position_of : list Z -> nat -> Position.

Definition positionAt (text : list Z) (offset : Z) : Position :=
  position_of text
    (Z.to_nat (Z.max (Z.min offset (Z.of_nat (length text))) 0)).

(** The diagnostic both loops build for the match [text.substring(index, e)]. *)
Definition diagnosticOf (sev : DiagnosticSeverity) (text : list Z)
           (index e : nat) : Diagnostic :=
  {| severity := sev;
     range :=
       {| start := positionAt text (Z.of_nat index - 1);
          end_ := positionAt text
                    (Z.of_nat index + Z.of_nat (length (slice text index e)) + 1) |};
     message := slice text index e ++ utf16 " is surrounded by spaces.";
     source := "ex" |}.

(** [while ((m = pattern.exec(text)) && problems < limit) { problems++; ... }]
    with the pattern's [lastIndex], [problems] and [diagnostics] as the
    loop state. *)
Equations? scanLoop (pattern : regex) (limit : Z) (sev : DiagnosticSeverity)
           (text : list Z) (lastIndex : nat) (problems : Z)
           (diagnostics : list Diagnostic)
  : list Diagnostic by wf (Z.to_nat (limit - problems)) lt :=
  scanLoop pattern limit sev text lastIndex problems diagnostics
    with exec pattern text lastIndex := {
    | None := diagnostics
    | Some (index, e) with Z_lt_dec problems limit := {
        | left _ :=
            scanLoop pattern limit sev text e (problems + 1)
                     (diagnostics ++ [diagnosticOf sev text index e])
        | right _ := diagnostics } }.
Proof. lia. Qed.

End Scans.

(** ** Settings, documents and the server's state *)

Record ExampleSettings : Set := { maxNumberOfProblems : Z }.

Definition defaultSettings : ExampleSettings := {| maxNumberOfProblems := 1000 |}.

(** What the server sends to the client. *)
Inductive Outgoing : Set :=
| GetConfiguration (scopeUri : string)     (* connection.workspace.getConfiguration *)
| SendDiagnostics (uri : string) (diagnostics : list Diagnostic).

(** The module-level variables of the server. [documentSettings] caches, per
    URI, the settings the client answered with; [documents] is the synced
    documents of the [TextDocuments] manager, in insertion order. *)
Record Server : Type := {
  hasConfigurationCapability : bool;
  globalSettings : ExampleSettings;
  documentSettings : gmap string ExampleSettings;
  documents : list (string * list Z);
  outbox : list Outgoing
}.

Definition withGlobalSettings (s : Server) (g : ExampleSettings) : Server :=
  {| hasConfigurationCapability := hasConfigurationCapability s;
     globalSettings := g;
     documentSettings := documentSettings s;
     documents := documents s;
     outbox := outbox s |}.

Definition withDocumentSettings (s : Server) (c : gmap string ExampleSettings)
  : Server :=
  {| hasConfigurationCapability := hasConfigurationCapability s;
     globalSettings := globalSettings s;
     documentSettings := c;
     documents := documents s;
     outbox := outbox s |}.

Definition withDocuments (s : Server) (d : list (string * list Z)) : Server :=
  {| hasConfigurationCapability := hasConfigurationCapability s;
     globalSettings := globalSettings s;
     documentSettings := documentSettings s;
     documents := d;
     outbox := outbox s |}.

Definition send (s : Server) (o : Outgoing) : Server :=
  {| hasConfigurationCapability := hasConfigurationCapability s;
     globalSettings := globalSettings s;
     documentSettings := documentSettings s;
     documents := documents s;
     outbox := outbox s ++ [o] |}.

(** The state once [onInitialize] has recorded the client's capability. *)
Definition initialized (capability : bool) : Server :=
  {| hasConfigurationCapability := capability;
     globalSettings := defaultSettings;
     documentSettings := ∅;
     documents := [];
     outbox := [] |}.

(** The [TextDocuments] manager's map of synced documents. *)
Definition docGet (uri : string) (docs : list (string * list Z))
  : option (list Z) :=
  snd <$> find (fun d => String.eqb (fst d) uri) docs.

Definition docSet (uri : string) (text : list Z)
           (docs : list (string * list Z)) : list (string * list Z) :=
  match docGet uri docs with
  | Some _ =>
      map (fun d => if String.eqb (fst d) uri then (uri, text) else d) docs
  | None => docs ++ [(uri, text)]
  end.

Definition docDelete (uri : string) (docs : list (string * list Z))
  : list (string * list Z) :=
  List.filter (fun d => negb (String.eqb (fst d) uri)) docs.

(** The URIs of the open documents. *)
Definition openUris (s : Server) : gset string :=
  list_to_set (map fst (documents s)).

(** Notifications of the client, as the connection and the [TextDocuments]
    manager deliver them; [DidChangeTextDocument] carries the text the
    manager computed from the content changes. *)
Inductive Notification : Type :=
| DidOpenTextDocument (uri : string) (text : list Z)
| DidChangeTextDocument (uri : string) (text : list Z)
| DidCloseTextDocument (uri : string)
| DidChangeConfiguration (languageServerExample : option ExampleSettings).

Section Handlers.

Variable position_of : list Z -> nat -> Position.

(** The settings the client answers a [workspace/configuration] request
    for a scope URI with. *)
Variable client : string -> ExampleSettings.

Definition getDocumentSettings (s : Server) (resource : string)
  : Server * ExampleSettings :=
  if negb (hasConfigurationCapability s) then (s, globalSettings s)
  else
    match documentSettings s !! resource with
    | Some result => (s, result)
    | None =>
        let result := client resource in
        (withDocumentSettings (send s (GetConfiguration resource))
                              (<[resource := result]> (documentSettings s)),
         result)
    end.

(** [documents.onDidClose] *)
Definition onDidClose (s : Server) (uri : string) : Server :=
  withDocumentSettings s (delete uri (documentSettings s)).

(** The diagnostics of [documents.onDidChangeContent]; [settings] is
    fetched by the handler and not used. *)
Definition changeContentDiagnostics (settings : ExampleSettings)
           (text : list Z) : list Diagnostic :=
  scanLoop position_of operatorPattern 1000 Error text 0 0 [].

(** [documents.onDidChangeContent] *)
Definition onDidChangeContent (s : Server) (uri : string) (text : list Z)
  : Server :=
  let (s1, settings) := getDocumentSettings s uri in
  send s1 (SendDiagnostics uri (changeContentDiagnostics settings text)).

(** The diagnostics of [validateTextDocument]. *)
Definition validateDiagnostics (settings : ExampleSettings) (text : list Z)
  : list Diagnostic :=
  scanLoop position_of uppercasePattern (maxNumberOfProblems settings)
           Warning text 0 0 [].

(** [validateTextDocument] is asynchronous: a call runs up to its [await]
    ([validateStart]); the rest runs once the settings are there
    ([validateResume]). *)
Definition validateStart (s : Server) (doc : string * list Z)
  : Server * ExampleSettings :=
  getDocumentSettings s (fst doc).

Definition validateResume (s : Server)
           (pending : (string * list Z) * ExampleSettings) : Server :=
  let (doc, settings) := pending in
  send s (SendDiagnostics (fst doc) (validateDiagnostics settings (snd doc))).


(** [documents.all().forEach(validateTextDocument)]: every call runs to its
    [await] before the first one resumes. *)
Definition validateAll (s : Server) : Server :=
  let started :=
    foldl (fun acc doc =>
             let (s1, settings) := validateStart (fst acc) doc in
             (s1, snd acc ++ [(doc, settings)]))
          (s, []) (documents s) in
  foldl validateResume (fst started) (snd started).

(** [connection.onDidChangeConfiguration] *)
Definition onDidChangeConfiguration (s : Server)
           (languageServerExample : option ExampleSettings) : Server :=
  let s1 :=
    if hasConfigurationCapability s
    then withDocumentSettings s ∅
    else withGlobalSettings s
           (match languageServerExample with
            | Some settings => settings
            | None => defaultSettings
            end) in
  validateAll s1.

(** One notification: what the [TextDocuments] manager does with it, then
    one whole run of the handler it fires. A change or a close of a document
    that is not synced fires nothing. The handlers are asynchronous: what
    they do to the cache, the documents and the settings happens before
    their [await], within the notification; the scan and [sendDiagnostics]
    happen after it, once the settings are there, which with a pending
    configuration request is when the client answers. [step] runs that
    second half at once, on the text of the notification. The state it
    yields is the server's; the place of a publication in [outbox] is that
    of a session in which the client answers before it sends the next
    notification. *)
Definition step (s : Server) (n : Notification) : Server :=
  match n with
  | DidOpenTextDocument uri text =>
      onDidChangeContent (withDocuments s (docSet uri text (documents s)))
                         uri text
  | DidChangeTextDocument uri text =>
      match docGet uri (documents s) with
      | Some _ =>
          onDidChangeContent (withDocuments s (docSet uri text (documents s)))
                             uri text
      | None => s
      end
  | DidCloseTextDocument uri =>
      match docGet uri (documents s) with
      | Some _ =>
          onDidClose (withDocuments s (docDelete uri (documents s))) uri
      | None => s
      end
  | DidChangeConfiguration settings => onDidChangeConfiguration s settings
  end.

End Handlers.

(** A session: the notifications in the order they arrive, each with the
    client's configuration at that time. *)
Definition run (position_of : list Z -> nat -> Position) (s : Server)
           (ns : list ((string -> ExampleSettings) * Notification)) : Server :=
  foldl (fun s n => step position_of (fst n) s (snd n)) s ns.

(** ** Completion *)

Module CompletionItemKind.
(* [Variable] is reserved in Rocq, hence the underscore. *)
Inductive t : Set := Function | Keyword | Color | Variable_.
End CompletionItemKind.

Record CompletionItem : Set := {
  label : string;
  kind : option CompletionItemKind.t;
  detail : option string;
  documentation : option string
}.

(** [{ label: l, kind: k }] *)
Definition item (l : string) (k : CompletionItemKind.t) : CompletionItem :=
  {| label := l; kind := Some k; detail := None; documentation := None |}.

Record TextDocumentPositionParams : Set := {
  textDocument : string;
  position : Position
}.

(** [connection.onCompletion]; labels are kept as the bytes of the source
    file. *)
Definition onCompletion (_textDocumentPosition : TextDocumentPositionParams)
  : list CompletionItem :=
  [
    item "abs" CompletionItemKind.Function;
    item "and" CompletionItemKind.Function;
    item "angle" CompletionItemKind.Function;
    item "ANOVA" CompletionItemKind.Function;
    item "Ans" CompletionItemKind.Function;
    item "Archive" CompletionItemKind.Function;
    item "Asm" CompletionItemKind.Function;
    item "AsmComp" CompletionItemKind.Function;
    item "AsmPrgm" CompletionItemKind.Function;
    item "augment" CompletionItemKind.Function;
    item "AxesOff" CompletionItemKind.Function;
    item "AxesOn" CompletionItemKind.Function;
    item "a+bi" CompletionItemKind.Function;
    item "bal" CompletionItemKind.Function;
    item "binomcdf" CompletionItemKind.Function;
    item "binompdf" CompletionItemKind.Function;
    item "Boxplot" CompletionItemKind.Function;
    item "checkTmr" CompletionItemKind.Function;
    item "x2cdf" CompletionItemKind.Function;
    item "x2pdf" CompletionItemKind.Function;
    item "x2-Test" CompletionItemKind.Function;
    item "Circle" CompletionItemKind.Function;
    item "Clear" CompletionItemKind.Function;
    item "ClockOff" CompletionItemKind.Function;
    item "ClockOn" CompletionItemKind.Function;
    item "ClrAllLists" CompletionItemKind.Function;
    item "ClrDraw" CompletionItemKind.Function;
    item "ClrHome" CompletionItemKind.Function;
    item "ClrList" CompletionItemKind.Function;
    item "ClrTable" CompletionItemKind.Function;
    item "conj" CompletionItemKind.Function;
    item "Connected" CompletionItemKind.Function;
    item "CoordOff" CompletionItemKind.Function;
    item "CoordOn" CompletionItemKind.Function;
    item "cos" CompletionItemKind.Function;
    item "cos-1" CompletionItemKind.Function;
    item "cosh" CompletionItemKind.Function;
    item "cosh-1" CompletionItemKind.Function;
    item "CubicReg" CompletionItemKind.Function;
    item "cumSum" CompletionItemKind.Function;
    item "dayOfWk" CompletionItemKind.Function;
    item "dbd" CompletionItemKind.Function;
    item "▶Dec" CompletionItemKind.Function;
    item "Degree" CompletionItemKind.Function;
    item "DependAsk" CompletionItemKind.Function;
    item "DependAuto" CompletionItemKind.Function;
    item "det" CompletionItemKind.Function;
    item "DiagnosticOff" CompletionItemKind.Function;
    item "DiagnosticOn" CompletionItemKind.Function;
    item "dim" CompletionItemKind.Function;
    item "Disp" CompletionItemKind.Function;
    item "DispGraph" CompletionItemKind.Function;
    item "DispTable" CompletionItemKind.Function;
    item "▶DMS" CompletionItemKind.Function;
    item "Dot" CompletionItemKind.Function;
    item "DrawF" CompletionItemKind.Function;
    item "DrawInv" CompletionItemKind.Function;
    item "e" CompletionItemKind.Function;
    item "e^" CompletionItemKind.Function;
    item "E" CompletionItemKind.Function;
    item "▶Eff" CompletionItemKind.Function;
    item "Eng" CompletionItemKind.Function;
    item "Equ▶String" CompletionItemKind.Function;
    item "expr" CompletionItemKind.Function;
    item "ExprOff" CompletionItemKind.Function;
    item "ExprOn" CompletionItemKind.Function;
    item "Fcdf" CompletionItemKind.Function;
    item "Fill" CompletionItemKind.Function;
    item "Fix" CompletionItemKind.Function;
    item "Float" CompletionItemKind.Function;
    item "fMax" CompletionItemKind.Function;
    item "fMin" CompletionItemKind.Function;
    item "fnInt" CompletionItemKind.Function;
    item "FnOff" CompletionItemKind.Function;
    item "FnOn" CompletionItemKind.Function;
    item "fPart" CompletionItemKind.Function;
    item "Fpdf" CompletionItemKind.Function;
    item "▶Frac" CompletionItemKind.Function;
    item "Full" CompletionItemKind.Function;
    item "Func" CompletionItemKind.Function;
    item "GarbageCollect" CompletionItemKind.Function;
    item "gcd" CompletionItemKind.Function;
    item "geometcdf" CompletionItemKind.Function;
    item "geometpdf" CompletionItemKind.Function;
    item "Get" CompletionItemKind.Function;
    item "GetCalc" CompletionItemKind.Function;
    item "GetDate" CompletionItemKind.Function;
    item "getDtFmt" CompletionItemKind.Function;
    item "getDtStr" CompletionItemKind.Function;
    item "GetTime" CompletionItemKind.Function;
    item "getTmFmt" CompletionItemKind.Function;
    item "getTmStr" CompletionItemKind.Function;
    item "getKey" CompletionItemKind.Function;
    item "GridOff" CompletionItemKind.Function;
    item "GridOn" CompletionItemKind.Function;
    item "G-T" CompletionItemKind.Function;
    item "Histogram" CompletionItemKind.Function;
    item "Horiz" CompletionItemKind.Function;
    item "Horizontal" CompletionItemKind.Function;
    item "i" CompletionItemKind.Function;
    item "identity" CompletionItemKind.Function;
    item "imag" CompletionItemKind.Function;
    item "IndpntAsk" CompletionItemKind.Function;
    item "IndpntAuto" CompletionItemKind.Function;
    item "Input" CompletionItemKind.Function;
    item "inString" CompletionItemKind.Function;
    item "int" CompletionItemKind.Function;
    item "ΣInt" CompletionItemKind.Function;
    item "intersect" CompletionItemKind.Function;
    item "invNorm" CompletionItemKind.Function;
    item "iPart" CompletionItemKind.Function;
    item "irr" CompletionItemKind.Function;
    item "isClockOn" CompletionItemKind.Function;
    item "L" CompletionItemKind.Function;
    item "LabelOff" CompletionItemKind.Function;
    item "LabelOn" CompletionItemKind.Function;
    item "lcm" CompletionItemKind.Function;
    item "length" CompletionItemKind.Function;
    item "Line" CompletionItemKind.Function;
    item "LinReg" CompletionItemKind.Function;
    item "LinReg" CompletionItemKind.Function;
    item "LinRegTTest" CompletionItemKind.Function;
    item "∆List" CompletionItemKind.Function;
    item "List▶matr" CompletionItemKind.Function;
    item "ln" CompletionItemKind.Function;
    item "LnReg" CompletionItemKind.Function;
    item "log" CompletionItemKind.Function;
    item "Logistic" CompletionItemKind.Function;
    item "Matr▶list" CompletionItemKind.Function;
    item "max" CompletionItemKind.Function;
    item "mean" CompletionItemKind.Function;
    item "median" CompletionItemKind.Function;
    item "Med-Med" CompletionItemKind.Function;
    item "min" CompletionItemKind.Function;
    item "ModBoxplot" CompletionItemKind.Function;
    item "nCr" CompletionItemKind.Function;
    item "nDeriv" CompletionItemKind.Function;
    item "▶Nom" CompletionItemKind.Function;
    item "Normal" CompletionItemKind.Function;
    item "normalcdf" CompletionItemKind.Function;
    item "normalpdf" CompletionItemKind.Function;
    item "NormProbPlot" CompletionItemKind.Function;
    item "not" CompletionItemKind.Function;
    item "nPr" CompletionItemKind.Function;
    item "npv" CompletionItemKind.Function;
    item "or" CompletionItemKind.Function;
    item "Output" CompletionItemKind.Function;
    item "Param" CompletionItemKind.Function;
    item "Plot1" CompletionItemKind.Function;
    item "Plot2" CompletionItemKind.Function;
    item "Plot3" CompletionItemKind.Function;
    item "PlotsOff" CompletionItemKind.Function;
    item "PlotsOn" CompletionItemKind.Function;
    item "Pmt_Bgn" CompletionItemKind.Function;
    item "Pmt_End" CompletionItemKind.Function;
    item "poissoncdf" CompletionItemKind.Function;
    item "poissonpdf" CompletionItemKind.Function;
    item "Polar" CompletionItemKind.Function;
    item "▶Polar" CompletionItemKind.Function;
    item "PolarGC" CompletionItemKind.Function;
    item "∑Prn" CompletionItemKind.Function;
    item "prod" CompletionItemKind.Function;
    item "Prompt" CompletionItemKind.Function;
    item "1-PropZInt" CompletionItemKind.Function;
    item "2-PropZInt" CompletionItemKind.Function;
    item "1-PropZTest" CompletionItemKind.Function;
    item "2-PropZTest" CompletionItemKind.Function;
    item "Pt-Change" CompletionItemKind.Function;
    item "Pt-Off" CompletionItemKind.Function;
    item "Pt-On" CompletionItemKind.Function;
    item "PwrReg" CompletionItemKind.Function;
    item "Pxl-Change" CompletionItemKind.Function;
    item "Pxl-Off" CompletionItemKind.Function;
    item "Pxl-On" CompletionItemKind.Function;
    item "Pxl-Test" CompletionItemKind.Function;
    item "P▶Rx" CompletionItemKind.Function;
    item "P▶Ry" CompletionItemKind.Function;
    item "QuadReg" CompletionItemKind.Function;
    item "QuartReg" CompletionItemKind.Function;
    item "Radian" CompletionItemKind.Function;
    item "rand" CompletionItemKind.Function;
    item "randBin" CompletionItemKind.Function;
    item "randInt" CompletionItemKind.Function;
    item "randM" CompletionItemKind.Function;
    item "randNorm" CompletionItemKind.Function;
    item "re^θi" CompletionItemKind.Function;
    item "Real" CompletionItemKind.Function;
    item "real" CompletionItemKind.Function;
    item "RecallGDB" CompletionItemKind.Function;
    item "RecallPic" CompletionItemKind.Function;
    item "▶Rect" CompletionItemKind.Function;
    item "RectGC" CompletionItemKind.Function;
    item "ref" CompletionItemKind.Function;
    item "round" CompletionItemKind.Function;
    item "*row" CompletionItemKind.Function;
    item "row" CompletionItemKind.Function;
    item "row+" CompletionItemKind.Function;
    item "*row+" CompletionItemKind.Function;
    item "row+" CompletionItemKind.Function;
    item "rowSwap" CompletionItemKind.Function;
    item "rref" CompletionItemKind.Function;
    item "R▶Pr" CompletionItemKind.Function;
    item "R▶Pθ" CompletionItemKind.Function;
    item "2-SampFTest" CompletionItemKind.Function;
    item "2-SampTInt" CompletionItemKind.Function;
    item "2-SampTTest" CompletionItemKind.Function;
    item "2-SampZInt" CompletionItemKind.Function;
    item "2-SampZTest" CompletionItemKind.Function;
    item "Scatter" CompletionItemKind.Function;
    item "Sci" CompletionItemKind.Function;
    item "Select" CompletionItemKind.Function;
    item "Send" CompletionItemKind.Function;
    item "seq" CompletionItemKind.Function;
    item "Seq" CompletionItemKind.Function;
    item "Sequential" CompletionItemKind.Function;
    item "setDate" CompletionItemKind.Function;
    item "setDtFmt" CompletionItemKind.Function;
    item "setTime" CompletionItemKind.Function;
    item "setTmFmt" CompletionItemKind.Function;
    item "SetUpEditor" CompletionItemKind.Function;
    item "Shade" CompletionItemKind.Function;
    item "Shadex2" CompletionItemKind.Function;
    item "ShadeF" CompletionItemKind.Function;
    item "ShadeNorm" CompletionItemKind.Function;
    item "Shade_t" CompletionItemKind.Function;
    item "Simul" CompletionItemKind.Function;
    item "sin" CompletionItemKind.Function;
    item "sin-1" CompletionItemKind.Function;
    item "sinh" CompletionItemKind.Function;
    item "sinh-1" CompletionItemKind.Function;
    item "SinReg" CompletionItemKind.Function;
    item "solve" CompletionItemKind.Function;
    item "SortA" CompletionItemKind.Function;
    item "SortD" CompletionItemKind.Function;
    item "startTmr" CompletionItemKind.Function;
    item "stdDev" CompletionItemKind.Function;
    item "StoreGDB" CompletionItemKind.Function;
    item "StorePic" CompletionItemKind.Function;
    item "String►Equ" CompletionItemKind.Function;
    item "sub" CompletionItemKind.Function;
    item "sum" CompletionItemKind.Function;
    item "tan" CompletionItemKind.Function;
    item "tan-1" CompletionItemKind.Function;
    item "Tangent" CompletionItemKind.Function;
    item "tanh" CompletionItemKind.Function;
    item "tanh-1" CompletionItemKind.Function;
    item "tcdf" CompletionItemKind.Function;
    item "Text" CompletionItemKind.Function;
    item "Time" CompletionItemKind.Function;
    item "timeCnv" CompletionItemKind.Function;
    item "TInterval" CompletionItemKind.Function;
    item "tpdf" CompletionItemKind.Function;
    item "T-Test" CompletionItemKind.Function;
    item "tmv_FV" CompletionItemKind.Function;
    item "tmv_I%" CompletionItemKind.Function;
    item "tmv_N" CompletionItemKind.Function;
    item "tmv_Pmt" CompletionItemKind.Function;
    item "tmv_PV" CompletionItemKind.Function;
    item "UnArchive" CompletionItemKind.Function;
    item "uvAxes" CompletionItemKind.Function;
    item "uwAxes" CompletionItemKind.Function;
    item "1-Var" CompletionItemKind.Function;
    item "2-Var" CompletionItemKind.Function;
    item "variance" CompletionItemKind.Function;
    item "Vertical" CompletionItemKind.Function;
    item "vwAxes" CompletionItemKind.Function;
    item "Web" CompletionItemKind.Function;
    item "xor" CompletionItemKind.Function;
    item "xyLine" CompletionItemKind.Function;
    item "ZBox" CompletionItemKind.Function;
    item "ZDecimal" CompletionItemKind.Function;
    item "ZInteger" CompletionItemKind.Function;
    item "ZInterval" CompletionItemKind.Function;
    item "Zoom" CompletionItemKind.Function;
    item "Zoom" CompletionItemKind.Function;
    item "ZoomFit" CompletionItemKind.Function;
    item "ZoomRcl" CompletionItemKind.Function;
    item "ZoomStat" CompletionItemKind.Function;
    item "ZoomSto" CompletionItemKind.Function;
    item "ZPrevious" CompletionItemKind.Function;
    item "ZSquare" CompletionItemKind.Function;
    item "ZStandard" CompletionItemKind.Function;
    item "Z-Test" CompletionItemKind.Function;
    item "ZTrig" CompletionItemKind.Function;
    item "Input" CompletionItemKind.Function;
    item "Prompt" CompletionItemKind.Function;
    item "Disp" CompletionItemKind.Function;
    item "DispGraph" CompletionItemKind.Function;
    item "DispTable" CompletionItemKind.Function;
    item "If" CompletionItemKind.Keyword;
    item "Then" CompletionItemKind.Keyword;
    item "Else" CompletionItemKind.Keyword;
    item "For" CompletionItemKind.Keyword;
    item "While" CompletionItemKind.Keyword;
    item "Repeat" CompletionItemKind.Keyword;
    item "End" CompletionItemKind.Keyword;
    item "Pause" CompletionItemKind.Keyword;
    item "Lbl" CompletionItemKind.Keyword;
    item "Goto" CompletionItemKind.Keyword;
    item "Wait" CompletionItemKind.Keyword;
    item "IS>" CompletionItemKind.Keyword;
    item "DS<" CompletionItemKind.Keyword;
    item "Menu" CompletionItemKind.Keyword;
    item "prgm" CompletionItemKind.Keyword;
    item "Return" CompletionItemKind.Keyword;
    item "Stop" CompletionItemKind.Keyword;
    item "DelVar" CompletionItemKind.Keyword;
    item "GraphStyle" CompletionItemKind.Keyword;
    item "GraphColor" CompletionItemKind.Keyword;
    item "OpenLib" CompletionItemKind.Keyword;
    item "ExecLib" CompletionItemKind.Keyword;
    item "BLUE" CompletionItemKind.Color;
    item "RED" CompletionItemKind.Color;
    item "BLACK" CompletionItemKind.Color;
    item "MAGENTA" CompletionItemKind.Color;
    item "GREEN" CompletionItemKind.Color;
    item "ORANGE" CompletionItemKind.Color;
    item "BROWN" CompletionItemKind.Color;
    item "NAVY" CompletionItemKind.Color;
    item "LTBLUE" CompletionItemKind.Color;
    item "YELLOW" CompletionItemKind.Color;
    item "LTGRAY" CompletionItemKind.Color;
    item "MEDGREY" CompletionItemKind.Color;
    item "GRAY" CompletionItemKind.Color;
    item "DARKGRAY" CompletionItemKind.Color;
    item "A" CompletionItemKind.Variable_;
    item "B" CompletionItemKind.Variable_;
    item "C" CompletionItemKind.Variable_;
    item "D" CompletionItemKind.Variable_;
    item "E" CompletionItemKind.Variable_;
    item "F" CompletionItemKind.Variable_;
    item "G" CompletionItemKind.Variable_;
    item "H" CompletionItemKind.Variable_;
    item "I" CompletionItemKind.Variable_;
    item "J" CompletionItemKind.Variable_;
    item "K" CompletionItemKind.Variable_;
    item "L" CompletionItemKind.Variable_;
    item "M" CompletionItemKind.Variable_;
    item "N" CompletionItemKind.Variable_;
    item "O" CompletionItemKind.Variable_;
    item "P" CompletionItemKind.Variable_;
    item "Q" CompletionItemKind.Variable_;
    item "R" CompletionItemKind.Variable_;
    item "S" CompletionItemKind.Variable_;
    item "T" CompletionItemKind.Variable_;
    item "U" CompletionItemKind.Variable_;
    item "V" CompletionItemKind.Variable_;
    item "W" CompletionItemKind.Variable_;
    item "X" CompletionItemKind.Variable_;
    item "Y" CompletionItemKind.Variable_;
    item "Z" CompletionItemKind.Variable_;
    item "θ" CompletionItemKind.Variable_;
    item "u" CompletionItemKind.Variable_;
    item "v" CompletionItemKind.Variable_;
    item "w" CompletionItemKind.Variable_;
    item "L1" CompletionItemKind.Variable_;
    item "L2" CompletionItemKind.Variable_;
    item "L3" CompletionItemKind.Variable_;
    item "L4" CompletionItemKind.Variable_;
    item "L5" CompletionItemKind.Variable_;
    item "L6" CompletionItemKind.Variable_;
    item "Str0" CompletionItemKind.Variable_;
    item "Str1" CompletionItemKind.Variable_;
    item "Str2" CompletionItemKind.Variable_;
    item "Str3" CompletionItemKind.Variable_;
    item "Str4" CompletionItemKind.Variable_;
    item "Str5" CompletionItemKind.Variable_;
    item "Str6" CompletionItemKind.Variable_;
    item "Str7" CompletionItemKind.Variable_;
    item "Str8" CompletionItemKind.Variable_;
    item "Str9" CompletionItemKind.Variable_;
    item "Pic0" CompletionItemKind.Variable_;
    item "Pic1" CompletionItemKind.Variable_;
    item "Pic2" CompletionItemKind.Variable_;
    item "Pic3" CompletionItemKind.Variable_;
    item "Pic4" CompletionItemKind.Variable_;
    item "Pic5" CompletionItemKind.Variable_;
    item "Pic6" CompletionItemKind.Variable_;
    item "Pic7" CompletionItemKind.Variable_;
    item "Pic8" CompletionItemKind.Variable_;
    item "Pic9" CompletionItemKind.Variable_;
    item "GDB0" CompletionItemKind.Variable_;
    item "GDB1" CompletionItemKind.Variable_;
    item "GDB2" CompletionItemKind.Variable_;
    item "GDB3" CompletionItemKind.Variable_;
    item "GDB4" CompletionItemKind.Variable_;
    item "GDB5" CompletionItemKind.Variable_;
    item "GDB6" CompletionItemKind.Variable_;
    item "Image0" CompletionItemKind.Variable_;
    item "Image1" CompletionItemKind.Variable_;
    item "Image2" CompletionItemKind.Variable_;
    item "Image3" CompletionItemKind.Variable_;
    item "Image4" CompletionItemKind.Variable_;
    item "Image5" CompletionItemKind.Variable_;
    item "Image6" CompletionItemKind.Variable_;
    item "Image7" CompletionItemKind.Variable_;
    item "Image8" CompletionItemKind.Variable_;
    item "Image9" CompletionItemKind.Variable_;
    item "Y0" CompletionItemKind.Variable_;
    item "Y1" CompletionItemKind.Variable_;
    item "Y2" CompletionItemKind.Variable_;
    item "Y3" CompletionItemKind.Variable_;
    item "Y4" CompletionItemKind.Variable_;
    item "Y5" CompletionItemKind.Variable_;
    item "Y6" CompletionItemKind.Variable_;
    item "Y7" CompletionItemKind.Variable_;
    item "Y8" CompletionItemKind.Variable_;
    item "Y9" CompletionItemKind.Variable_;
    item "r1" CompletionItemKind.Variable_;
    item "r2" CompletionItemKind.Variable_;
    item "r3" CompletionItemKind.Variable_;
    item "r4" CompletionItemKind.Variable_;
    item "r5" CompletionItemKind.Variable_;
    item "r6" CompletionItemKind.Variable_;
    item "[A]" CompletionItemKind.Variable_;
    item "[B]" CompletionItemKind.Variable_;
    item "[C]" CompletionItemKind.Variable_;
    item "[D]" CompletionItemKind.Variable_;
    item "[E]" CompletionItemKind.Variable_;
    item "[F]" CompletionItemKind.Variable_;
    item "[G]" CompletionItemKind.Variable_;
    item "[H]" CompletionItemKind.Variable_;
    item "[I]" CompletionItemKind.Variable_;
    item "[J]" CompletionItemKind.Variable_
  ].

(** [connection.onCompletionResolve] *)
Definition onCompletionResolve (item : CompletionItem) : CompletionItem := item.

(** Requests of the client and the server's answers. *)
Inductive Request : Set :=
| Completion (params : TextDocumentPositionParams)
| CompletionResolve (item : CompletionItem).

Inductive Response : Set :=
| CompletionList (items : list CompletionItem)
| ResolvedItem (item : CompletionItem).

Definition respond (s : Server) (r : Request) : Response :=
  match r with
  | Completion params => CompletionList (onCompletion params)
  | CompletionResolve item => ResolvedItem (onCompletionResolve item)
  end.

(** ** The claims' vocabulary *)

(** The first [n] successive matches of a global pattern, from [lastIndex]. *)
Fixpoint execAll (n : nat) (pattern : regex) (text : list Z) (lastIndex : nat)
  : list (nat * nat) :=
  match n with
  | O => []
  | S n' =>
      match exec pattern text lastIndex with
      | None => []
      | Some (index, e) => (index, e) :: execAll n' pattern text e
      end
  end.

(** Two adjacent uppercase letters somewhere in the text. *)
Fixpoint hasUppercaseRun (text : list Z) : bool :=
  match text with
  | a :: (b :: _) as rest => (isUpper a && isUpper b) || hasUppercaseRun rest
  | _ => false
  end.

(** A unit satisfying [inner] between two units satisfying [around]. *)
Fixpoint hasSurrounded (around inner : Z -> bool) (text : list Z) : bool :=
  match text with
  | a :: (b :: c :: _) as rest =>
      (around a && inner b && around c) || hasSurrounded around inner rest
  | _ => false
  end.

(** The space character, U+0020. *)
Definition isSpace (c : Z) : bool := (c =? 32)%Z.

(** The operator characters [> < + - * → ≤ ≥ ≠]. *)
Definition isOperator (c : Z) : bool :=
  ((c =? 62) || (c =? 60) || (c =? 43) || (c =? 45) || (c =? 42)
   || (c =? 8594) || (c =? 8804) || (c =? 8805) || (c =? 8800))%Z.

(** ["1\t+\t2"]: a sum whose operator stands between two tabs. *)
Definition tabbedSum : list Z := [49; 9; 43; 9; 50]%Z.

(** A client whose configuration allows five problems everywhere. *)
Definition fiveProblems (scopeUri : string) : ExampleSettings :=
  {| maxNumberOfProblems := 5 |}.

(** A server with the capability, two open documents and a cache entry for
    each; the entry of ["a.8xp"] is older than the client's configuration. *)
Definition sampleServer : Server :=
  {| hasConfigurationCapability := true;
     globalSettings := defaultSettings;
     documentSettings :=
       <["a.8xp" := {| maxNumberOfProblems := 1 |}]>
         (<["b.8xp" := {| maxNumberOfProblems := 7 |}]> ∅);
     documents := [("a.8xp", utf16 "AB + CD"); ("b.8xp", utf16 "1+2")];
     outbox := [] |}.

(** The diagnostics the server sent for [uri] last. *)
Definition lastDiagnostics (uri : string) (out : list Outgoing)
  : option (list Diagnostic) :=
  List.last
    (map Some
       (omap (fun o => match o with
                       | SendDiagnostics u ds =>
                           if String.eqb u uri then Some ds else None
                       | GetConfiguration _ => None
                       end) out))
    None.

(** ** Initialization *)

Module Lifecycle.

(** The parts of the client's [InitializeParams] the server reads; an absent
    field is [None]. *)
Record WorkspaceClientCapabilities : Set := {
  configuration : option bool;
  workspaceFolders : option bool
}.

Record PublishDiagnosticsClientCapabilities : Set := {
  relatedInformation : option bool
}.

Record TextDocumentClientCapabilities : Set := {
  publishDiagnostics : option PublishDiagnosticsClientCapabilities
}.

Record ClientCapabilities : Set := {
  workspace : option WorkspaceClientCapabilities;
  textDocument : option TextDocumentClientCapabilities
}.

Record InitializeParams : Set := { capabilities : ClientCapabilities }.

(** [!!x] of an optional boolean. *)
Definition truthy (x : option bool) : bool :=
  match x with
  | Some b => b
  | None => false
  end.

(** The three module-level flags [onInitialize] assigns. *)
Record Flags : Set := {
  hasConfigurationCapability : bool;
  hasWorkspaceFolderCapability : bool;
  hasDiagnosticRelatedInformationCapability : bool
}.

Inductive TextDocumentSyncKind : Set := SyncNone | Full | Incremental.

(** [InitializeResult.capabilities]: [completionProvider] is its
    [resolveProvider], [workspaceFolders] is [workspace.workspaceFolders.supported]
    when the [workspace] field is set. *)
Record ServerCapabilities : Set := {
  textDocumentSync : TextDocumentSyncKind;
  completionProvider : option bool;
  workspaceFoldersSupported : option bool
}.

(** [connection.onInitialize] *)
Definition onInitialize (params : InitializeParams)
  : Flags * ServerCapabilities :=
  let capabilities := capabilities params in
  let flags :=
    {| hasConfigurationCapability :=
         match workspace capabilities with
         | Some w => truthy (configuration w)
         | None => false
         end;
       hasWorkspaceFolderCapability :=
         match workspace capabilities with
         | Some w => truthy (workspaceFolders w)
         | None => false
         end;
       hasDiagnosticRelatedInformationCapability :=
         match textDocument capabilities with
         | Some t =>
             match publishDiagnostics t with
             | Some p => truthy (relatedInformation p)
             | None => false
             end
         | None => false
         end |} in
  (flags,
   {| textDocumentSync := Incremental;
      completionProvider := Some true;
      workspaceFoldersSupported :=
        if hasWorkspaceFolderCapability flags then Some true else None |}).

(** What [connection.onInitialized] sets up. *)
Inductive Registration : Set :=
| DidChangeConfigurationNotification   (* connection.client.register *)
| WorkspaceFoldersListener.            (* onDidChangeWorkspaceFolders *)

(** [connection.onInitialized] *)
Definition onInitialized (flags : Flags) : list Registration :=
  (if hasConfigurationCapability flags
   then [DidChangeConfigurationNotification] else [])
  ++ (if hasWorkspaceFolderCapability flags
      then [WorkspaceFoldersListener] else []).

(** The server's state when the handshake is over. *)
Definition start (params : InitializeParams) : Server :=
  initialized (hasConfigurationCapability (fst (onInitialize params))).

End Lifecycle.

(** ** Vocabulary of the further properties *)

(** All the matches of a global pattern in a text, in the order successive
    calls of [exec] find them. *)
Definition allMatches (pattern : regex) (text : list Z) : list (nat * nat) :=
  execAll (S (length text)) pattern text 0.

(** The unit at offset [i] exists and satisfies [p]. *)
Definition unitSatisfies (p : Z -> bool) (text : list Z) (i : nat) : bool :=
  match nth_error text i with
  | Some c => p c
  | None => false
  end.

(** At offset [j]: a word character, a white space, a unit of the operator
    class, a white space, a word character. *)
Definition flankedOperatorAt (text : list Z) (j : nat) : bool :=
  isWordAt text j
  && unitSatisfies isWhiteSpace text (j + 1)
  && unitSatisfies isOperatorClass text (j + 2)
  && unitSatisfies isWhiteSpace text (j + 3)
  && isWordAt text (j + 4).

(** The [n >= 2] units from offset [i] are uppercase letters, and neither the
    unit before them nor the unit after them is a word character. *)
Definition uppercaseWordAt (text : list Z) (i n : nat) : bool :=
  (2 <=? n)
  && forallb (fun j => unitSatisfies isUpper text (i + j)) (seq 0 n)
  && negb (match i with O => false | S k => isWordAt text k end)
  && negb (isWordAt text (i + n)).

Definition isGetConfiguration (o : Outgoing) : bool :=
  match o with
  | GetConfiguration _ => true
  | SendDiagnostics _ _ => false
  end.

(** The publication of [validateTextDocument] for a document under given
    settings. *)
Definition validation (position_of : list Z -> nat -> Position)
           (settingsOf : string -> ExampleSettings) (doc : string * list Z)
  : Outgoing :=
  SendDiagnostics (fst doc)
    (validateDiagnostics position_of (settingsOf (fst doc)) (snd doc)).

(** The server after it has sent [out]. *)
Definition sendAll (s : Server) (out : list Outgoing) : Server :=
  {| hasConfigurationCapability := hasConfigurationCapability s;
     globalSettings := globalSettings s;
     documentSettings := documentSettings s;
     documents := documents s;
     outbox := outbox s ++ out |}.

(** [initialize] parameters of a client that announces no workspace
    capabilities. *)
Definition noWorkspace : Lifecycle.InitializeParams :=
  {| Lifecycle.capabilities :=
       {| Lifecycle.workspace := None; Lifecycle.textDocument := None |} |}.

(** A server without the capability and with one open document. *)
Definition incapableServer : Server :=
  withDocuments (initialized false) [("a.8xp", utf16 "AB + CD")].


(** ** The matcher *)

Lemma tryDown_unfold j min k :
  tryDown j min k =
  if j <? min then None
  else match k j with
       | Some e => Some e
       | None => match j with O => None | S j' => tryDown j' min k end
       end.
Proof. destruct j; reflexivity. Qed.

Lemma tryDown_Some j min k e :
  tryDown j min k = Some e -> exists c, min <= c <= j /\ k c = Some e.
Proof.
  induction j as [|j IH]; rewrite tryDown_unfold;
    (match goal with |- context [?a <? min] =>
       destruct (Nat.ltb_spec0 a min) as [L|L]; [discriminate|];
       destruct (k a) eqn:K
     end).
  - intros [= <-]. exists 0. split; [lia|assumption].
  - discriminate.
  - intros [= <-]. exists (S j). split; [lia|assumption].
  - intros H. destruct (IH H) as (c & Hc & Hk). exists c. split; [lia|assumption].
Qed.

Lemma runLength_nth p l c :
  c < runLength p l -> exists x, nth_error l c = Some x /\ p x = true.
Proof.
  revert c. induction l as [|a l IH]; simpl; intros c Hc; [lia|].
  destruct (p a) eqn:Pa; [|lia].
  destruct c as [|c]; simpl.
  - exists a. split; [reflexivity|assumption].
  - apply IH. lia.
Qed.

Lemma runLength_le p l : runLength p l <= length l.
Proof.
  induction l as [|a l IH]; simpl; [lia|]. destruct (p a); simpl; lia.
Qed.

Lemma nth_error_skipn_add {A} (l : list A) i c :
  nth_error (skipn i l) c = nth_error l (i + c).
Proof.
  revert l. induction i as [|i IH]; intros l; simpl; [reflexivity|].
  destruct l as [|a l]; simpl; [destruct c; reflexivity|apply IH].
Qed.

(** A match of the operator pattern is three units long: a white space, a
    unit of the class, a white space. *)
Lemma operatorPattern_match text i e :
  rmatch operatorPattern text i Some = Some e ->
  e = i + 3 /\
  exists x y z,
    nth_error text i = Some x /\ nth_error text (i + 1) = Some y /\
    nth_error text (i + 2) = Some z /\
    isWhiteSpace x = true /\ isOperatorClass y = true /\ isWhiteSpace z = true.
Proof.
  unfold operatorPattern; cbn [rmatch].
  destruct (atBoundary text i); [|discriminate].
  destruct (nth_error text i) as [x|] eqn:Hx; [|discriminate].
  destruct (isWhiteSpace x) eqn:Wx; [|discriminate].
  destruct (nth_error text (S i)) as [y|] eqn:Hy; [|discriminate].
  destruct (isOperatorClass y) eqn:Oy; [|discriminate].
  destruct (nth_error text (S (S i))) as [z|] eqn:Hz; [|discriminate].
  destruct (isWhiteSpace z) eqn:Wz; [|discriminate].
  destruct (atBoundary text (S (S (S i)))); [|discriminate].
  intros [= <-]. split; [lia|].
  exists x, y, z. replace (i + 1) with (S i) by lia.
  replace (i + 2) with (S (S i)) by lia. auto 10.
Qed.

(** A match of the uppercase pattern is a run of at least two uppercase
    letters starting at the match index. *)
Lemma uppercasePattern_match text i e :
  rmatch uppercasePattern text i Some = Some e ->
  exists c, e = i + c /\ 2 <= c <= runLength isUpper (skipn i text).
Proof.
  unfold uppercasePattern; cbn [rmatch].
  destruct (atBoundary text i); [|discriminate].
  intros H. apply tryDown_Some in H. destruct H as (c & Hc & Hk).
  destruct (atBoundary text (i + c)); [|discriminate].
  injection Hk as <-. exists c. split; [reflexivity|exact Hc].
Qed.

Lemma search_Some r text i n a e :
  search r text i n = Some (a, e) ->
  i <= a <= i + n /\ rmatch r text a Some = Some e.
Proof.
  revert i. induction n as [|n IH]; intros i; simpl.
  - destruct (rmatch r text i Some) eqn:M; [|discriminate].
    intros [= <- <-]. split; [lia|assumption].
  - destruct (rmatch r text i Some) eqn:M.
    + intros [= <- <-]. split; [lia|assumption].
    + intros H. apply IH in H. destruct H as [H1 H2]. split; [lia|assumption].
Qed.

Lemma exec_Some r text lastIndex a e :
  exec r text lastIndex = Some (a, e) ->
  lastIndex <= a <= length text /\ rmatch r text a Some = Some e.
Proof.
  unfold exec. destruct (lastIndex <=? length text) eqn:L; [|discriminate].
  apply Nat.leb_le in L. intros H. apply search_Some in H.
  destruct H as [H1 H2]. split; [lia|assumption].
Qed.

(** Every match of the operator pattern consumes three units of the text. *)
Lemma exec_operatorPattern text lastIndex index e :
  exec operatorPattern text lastIndex = Some (index, e) ->
  lastIndex <= index /\ e = index + 3 /\ e <= length text.
Proof.
  intros H. apply exec_Some in H. destruct H as [H1 H2].
  apply operatorPattern_match in H2.
  destruct H2 as (-> & x & y & z & _ & _ & Hz & _).
  assert (index + 2 < length text) by (apply nth_error_Some; congruence).
  lia.
Qed.

(** Every match of the uppercase pattern consumes at least two units. *)
Lemma exec_uppercasePattern text lastIndex index e :
  exec uppercasePattern text lastIndex = Some (index, e) ->
  lastIndex <= index /\ index + 2 <= e /\ e <= length text.
Proof.
  intros H. apply exec_Some in H. destruct H as [H1 H2].
  apply uppercasePattern_match in H2. destruct H2 as (c & -> & Hc).
  pose proof (runLength_le isUpper (skipn index text)) as Hr.
  rewrite length_skipn in Hr. lia.
Qed.

Lemma execAll_length n pattern text lastIndex :
  length (execAll n pattern text lastIndex) <= n.
Proof.
  revert lastIndex. induction n as [|n IH]; intros lastIndex; simpl; [lia|].
  destruct (exec pattern text lastIndex) as [[index e]|]; simpl; [|lia].
  specialize (IH e). lia.
Qed.

Lemma execAll_In n pattern text lastIndex m :
  In m (execAll n pattern text lastIndex) ->
  exists lastIndex', exec pattern text lastIndex' = Some m.
Proof.
  revert lastIndex. induction n as [|n IH]; intros lastIndex; simpl; [tauto|].
  destruct (exec pattern text lastIndex) as [[index e]|] eqn:E; simpl; [|tauto].
  intros [<-|H]; [exists lastIndex; exact E|exact (IH _ H)].
Qed.

(** When every match consumes at least [k] units, the successive matches
    from [lastIndex] fit, [k] units each, in the rest of the text. *)
Lemma execAll_progress k pattern text :
  (forall lastIndex index e,
      exec pattern text lastIndex = Some (index, e) ->
      lastIndex <= index /\ index + k <= e /\ e <= length text) ->
  forall n lastIndex,
    k * length (execAll n pattern text lastIndex) <= length text - lastIndex.
Proof.
  intros Hk. induction n as [|n IH]; intros lastIndex; simpl; [lia|].
  destruct (exec pattern text lastIndex) as [[index e]|] eqn:E; simpl; [|lia].
  apply Hk in E. specialize (IH e). rewrite Nat.mul_succ_r. lia.
Qed.

Lemma hasUppercaseRun_intro text i x y :
  nth_error text i = Some x -> nth_error text (S i) = Some y ->
  isUpper x = true -> isUpper y = true -> hasUppercaseRun text = true.
Proof.
  revert text. induction i as [|i IH]; intros [|a [|b rest]] H1 H2 Hx Hy;
    try discriminate.
  - injection H1 as ->. injection H2 as ->. simpl. rewrite Hx, Hy. reflexivity.
  - change (hasUppercaseRun (a :: b :: rest))
      with (isUpper a && isUpper b || hasUppercaseRun (b :: rest)).
    rewrite (IH (b :: rest) H1 H2 Hx Hy). apply orb_true_r.
Qed.

Lemma hasSurrounded_intro around inner text i x y z :
  nth_error text i = Some x -> nth_error text (S i) = Some y ->
  nth_error text (S (S i)) = Some z ->
  around x = true -> inner y = true -> around z = true ->
  hasSurrounded around inner text = true.
Proof.
  revert text. induction i as [|i IH];
    intros [|a [|b [|c rest]]] H1 H2 H3 Hx Hy Hz; try discriminate.
  - injection H1 as ->. injection H2 as ->. injection H3 as ->.
    simpl. rewrite Hx, Hy, Hz. reflexivity.
  - change (hasSurrounded around inner (a :: b :: c :: rest))
      with (around a && inner b && around c
            || hasSurrounded around inner (b :: c :: rest)).
    rewrite (IH (b :: c :: rest) H1 H2 H3 Hx Hy Hz). apply orb_true_r.
Qed.

(** A text without a white space, class unit, white space triple has no
    match of the operator pattern. *)
Lemma exec_operatorPattern_None text lastIndex :
  hasSurrounded isWhiteSpace isOperatorClass text = false ->
  exec operatorPattern text lastIndex = None.
Proof.
  intros H. destruct (exec operatorPattern text lastIndex) as [[index e]|] eqn:E;
    [|reflexivity].
  apply exec_Some in E. destruct E as [_ E].
  apply operatorPattern_match in E.
  destruct E as (_ & x & y & z & Hx & Hy & Hz & Wx & Oy & Wz).
  replace (index + 1) with (S index) in Hy by lia.
  replace (index + 2) with (S (S index)) in Hz by lia.
  rewrite (hasSurrounded_intro _ _ _ _ _ _ _ Hx Hy Hz Wx Oy Wz) in H.
  discriminate.
Qed.

(** A text without two adjacent uppercase letters has no match of the
    uppercase pattern. *)
Lemma exec_uppercasePattern_None text lastIndex :
  hasUppercaseRun text = false ->
  exec uppercasePattern text lastIndex = None.
Proof.
  intros H. destruct (exec uppercasePattern text lastIndex) as [[index e]|] eqn:E;
    [|reflexivity].
  apply exec_Some in E. destruct E as [_ E].
  apply uppercasePattern_match in E. destruct E as (c & _ & Hc).
  destruct (runLength_nth isUpper (skipn index text) 0) as (x & Hx & Ux); [lia|].
  destruct (runLength_nth isUpper (skipn index text) 1) as (y & Hy & Uy); [lia|].
  rewrite nth_error_skipn_add in Hx, Hy.
  replace (index + 0) with index in Hx by lia.
  replace (index + 1) with (S index) in Hy by lia.
  rewrite (hasUppercaseRun_intro _ _ _ _ Hx Hy Ux Uy) in H. discriminate.
Qed.

Lemma length_slice text index e :
  e <= length text -> length (slice text index e) = e - index.
Proof.
  intros H. unfold slice. rewrite length_firstn, length_skipn. lia.
Qed.

(** ** The scanning loop *)

Section ScanLemmas.

Variable position_of : list Z -> nat -> Position.

(** The loop appends, in order, the diagnostics of the successive matches,
    and stops at a non-match or when [problems] reaches the limit. *)
Lemma scanLoop_execAll pattern limit sev text n :
  forall problems lastIndex diagnostics,
    Z.to_nat (limit - problems) = n ->
    scanLoop position_of pattern limit sev text lastIndex problems diagnostics
    = diagnostics ++
      map (fun m => diagnosticOf position_of sev text (fst m) (snd m))
          (execAll n pattern text lastIndex).
Proof.
  induction n as [|n IH]; intros problems lastIndex diagnostics Hn;
    simp scanLoop; simpl; destruct (exec pattern text lastIndex) as [[index e]|];
    simpl; try (rewrite app_nil_r; reflexivity).
  - destruct (Z_lt_dec problems limit); simpl; [lia|].
    rewrite app_nil_r; reflexivity.
  - destruct (Z_lt_dec problems limit); simpl; [|lia].
    rewrite IH by lia. rewrite <- app_assoc. reflexivity.
Qed.

End ScanLemmas.

(** ** The outbox *)

Lemma lastDiagnostics_send uri out ds :
  lastDiagnostics uri (out ++ [SendDiagnostics uri ds]) = Some ds.
Proof.
  unfold lastDiagnostics. rewrite omap_app, map_app. simpl.
  rewrite String.eqb_refl. simpl. apply last_last.
Qed.

(** ** The synced documents *)

Lemma docGet_Some uri docs text :
  docGet uri docs = Some text -> uri ∈ map fst docs.
Proof.
  unfold docGet. induction docs as [|[u t] docs IH]; simpl; [discriminate|].
  destruct (String.eqb_spec u uri) as [->|Hne]; simpl.
  - intros _. apply list_elem_of_here.
  - intros H. apply list_elem_of_further, IH, H.
Qed.

Lemma docSet_keys uri text docs :
  (list_to_set (map fst (docSet uri text docs)) : gset string)
  = {[uri]} ∪ list_to_set (map fst docs).
Proof.
  unfold docSet. destruct (docGet uri docs) as [old|] eqn:G.
  - apply docGet_Some in G.
    replace (map fst (map (fun d => if String.eqb (fst d) uri
                                    then (uri, text) else d) docs))
      with (map fst docs).
    + set_solver.
    + rewrite map_map. apply map_ext. intros [u t]. simpl.
      destruct (String.eqb_spec u uri) as [->|]; reflexivity.
  - rewrite map_app, list_to_set_app_L. simpl. set_solver.
Qed.

Lemma docDelete_keys uri docs :
  (list_to_set (map fst (docDelete uri docs)) : gset string)
  = list_to_set (map fst docs) ∖ {[uri]}.
Proof.
  unfold docDelete. induction docs as [|[u t] docs IH]; simpl; [set_solver|].
  destruct (String.eqb_spec u uri) as [->|Hne]; simpl;
    [|rewrite IH]; set_solver.
Qed.

(** ** The settings cache *)

Section CacheLemmas.

Variable position_of : list Z -> nat -> Position.
Variable client : string -> ExampleSettings.

Lemma getDocumentSettings_frame s resource :
  let s' := fst (getDocumentSettings client s resource) in
  hasConfigurationCapability s' = hasConfigurationCapability s /\
  globalSettings s' = globalSettings s /\
  documents s' = documents s.
Proof.
  unfold getDocumentSettings.
  destruct (hasConfigurationCapability s) eqn:C; simpl; [|rewrite C; auto].
  destruct (documentSettings s !! resource); simpl; auto.
Qed.

(** With the capability a lookup leaves the URI cached; without it the
    cache is not touched. *)
Lemma getDocumentSettings_cache s resource :
  let s' := fst (getDocumentSettings client s resource) in
  if hasConfigurationCapability s
  then dom (documentSettings s') = {[resource]} ∪ dom (documentSettings s)
  else documentSettings s' = documentSettings s.
Proof.
  unfold getDocumentSettings.
  destruct (hasConfigurationCapability s) eqn:C; simpl; [|reflexivity].
  destruct (documentSettings s !! resource) eqn:L; simpl.
  - assert (Hin : resource ∈ dom (documentSettings s))
      by (apply elem_of_dom; eauto).
    set_solver.
  - apply dom_insert_L.
Qed.

Lemma onDidChangeContent_frame s uri text :
  let s' := onDidChangeContent position_of client s uri text in
  hasConfigurationCapability s' = hasConfigurationCapability s /\
  globalSettings s' = globalSettings s /\
  documents s' = documents s.
Proof.
  unfold onDidChangeContent.
  pose proof (getDocumentSettings_frame s uri) as H.
  destruct (getDocumentSettings client s uri) as [s1 settings]. exact H.
Qed.

Lemma onDidChangeContent_cache s uri text :
  let s' := onDidChangeContent position_of client s uri text in
  if hasConfigurationCapability s
  then dom (documentSettings s') = {[uri]} ∪ dom (documentSettings s)
  else documentSettings s' = documentSettings s.
Proof.
  unfold onDidChangeContent.
  pose proof (getDocumentSettings_cache s uri) as H.
  destruct (getDocumentSettings client s uri) as [s1 settings]. exact H.
Qed.

(** The handler publishes the result of the operator scan, whatever the
    state and the settings. *)
Lemma onDidChangeContent_publishes s uri text :
  lastDiagnostics uri
    (outbox (onDidChangeContent position_of client s uri text))
  = Some (scanLoop position_of operatorPattern 1000 Error text 0 0 []).
Proof.
  unfold onDidChangeContent.
  destruct (getDocumentSettings client s uri) as [s1 settings]. simpl.
  apply lastDiagnostics_send.
Qed.

Lemma onDidClose_cache s uri :
  dom (documentSettings (onDidClose s uri))
  = dom (documentSettings s) ∖ {[uri]}.
Proof. unfold onDidClose; simpl. apply dom_delete_L. Qed.

(** The calls of [validateTextDocument] up to their [await]: with the
    capability every document's URI ends up cached. *)
Lemma validateStart_all docs :
  forall s pending,
    let started :=
      foldl (fun acc doc =>
               let (s1, settings) := validateStart client (fst acc) doc in
               (s1, snd acc ++ [(doc, settings)]))
            (s, pending) docs in
    hasConfigurationCapability (fst started) = hasConfigurationCapability s /\
    globalSettings (fst started) = globalSettings s /\
    documents (fst started) = documents s /\
    if hasConfigurationCapability s
    then dom (documentSettings (fst started))
         = dom (documentSettings s) ∪ list_to_set (map fst docs)
    else documentSettings (fst started) = documentSettings s.
Proof.
  induction docs as [|doc docs IH]; intros s pending; simpl.
  - repeat split. destruct (hasConfigurationCapability s); [set_solver|reflexivity].
  - pose proof (getDocumentSettings_frame s (fst doc)) as F.
    pose proof (getDocumentSettings_cache s (fst doc)) as F4.
    change (getDocumentSettings client s (fst doc))
      with (validateStart client s doc) in F, F4.
    destruct (validateStart client s doc) as [s1 settings].
    simpl in *. destruct F as (F1 & F2 & F3).
    specialize (IH s1 (pending ++ [(doc, settings)])). simpl in IH.
    destruct IH as (I1 & I2 & I3 & I4).
    rewrite I1, I2, I3, F1, F2, F3. repeat split.
    rewrite F1 in I4. destruct (hasConfigurationCapability s).
    + rewrite I4, F4. set_solver.
    + rewrite I4, F4. reflexivity.
Qed.

(** The resumed halves only send. *)
Lemma validateResume_all pending :
  forall s,
    let s' := foldl (validateResume position_of) s pending in
    hasConfigurationCapability s' = hasConfigurationCapability s /\
    globalSettings s' = globalSettings s /\
    documentSettings s' = documentSettings s /\
    documents s' = documents s.
Proof.
  induction pending as [|[doc settings] pending IH]; intros s; simpl; [auto|].
  specialize (IH (send s (SendDiagnostics (fst doc)
                    (validateDiagnostics position_of settings (snd doc))))).
  simpl in IH. exact IH.
Qed.

Lemma validateAll_cache s :
  let s' := validateAll position_of client s in
  hasConfigurationCapability s' = hasConfigurationCapability s /\
  documents s' = documents s /\
  if hasConfigurationCapability s
  then dom (documentSettings s') = dom (documentSettings s) ∪ openUris s
  else documentSettings s' = documentSettings s.
Proof.
  unfold validateAll, openUris.
  pose proof (validateStart_all (documents s) s []) as (S1 & _ & S3 & S4).
  pose proof (validateResume_all
                (snd (foldl (fun acc doc =>
                   let (s1, settings) := validateStart client (fst acc) doc in
                   (s1, snd acc ++ [(doc, settings)])) (s, []) (documents s)))
                (fst (foldl (fun acc doc =>
                   let (s1, settings) := validateStart client (fst acc) doc in
                   (s1, snd acc ++ [(doc, settings)])) (s, []) (documents s))))
    as (R1 & _ & R3 & R4).
  simpl in *. rewrite R1, R3, R4, S1, S3. repeat split. exact S4.
Qed.

(** With the capability, the cached URIs are the open ones after every
    notification if they were before it. *)
Lemma step_cache_capable s n :
  hasConfigurationCapability s = true ->
  dom (documentSettings s) = openUris s ->
  let s' := step position_of client s n in
  hasConfigurationCapability s' = true /\
  dom (documentSettings s') = openUris s'.
Proof.
  intros C I. destruct n as [uri text|uri text|uri|settings]; simpl.
  - pose proof (onDidChangeContent_frame
                  (withDocuments s (docSet uri text (documents s))) uri text)
      as (F1 & _ & F3).
    pose proof (onDidChangeContent_cache
                  (withDocuments s (docSet uri text (documents s))) uri text)
      as F4.
    simpl in *. rewrite C in F4. unfold openUris in *.
    rewrite F1, F3, F4, docSet_keys, I. auto.
  - destruct (docGet uri (documents s)) eqn:G; [|auto].
    pose proof (onDidChangeContent_frame
                  (withDocuments s (docSet uri text (documents s))) uri text)
      as (F1 & _ & F3).
    pose proof (onDidChangeContent_cache
                  (withDocuments s (docSet uri text (documents s))) uri text)
      as F4.
    simpl in *. rewrite C in F4. unfold openUris in *.
    rewrite F1, F3, F4, docSet_keys, I. auto.
  - destruct (docGet uri (documents s)) eqn:G; [|auto].
    unfold openUris in *. simpl. split; [exact C|].
    rewrite dom_delete_L, docDelete_keys, I. reflexivity.
  - unfold onDidChangeConfiguration. rewrite C.
    pose proof (validateAll_cache (withDocumentSettings s ∅)) as (V1 & V2 & V3).
    simpl in *. rewrite C in V3. rewrite V1. split; [exact C|].
    unfold openUris in *. rewrite V3, V2. simpl. set_solver.
Qed.

(** Without the capability nothing is ever cached. *)
Lemma step_cache_incapable s n :
  hasConfigurationCapability s = false ->
  documentSettings s = ∅ ->
  let s' := step position_of client s n in
  hasConfigurationCapability s' = false /\ documentSettings s' = ∅.
Proof.
  intros C I. destruct n as [uri text|uri text|uri|settings]; simpl.
  - pose proof (onDidChangeContent_frame
                  (withDocuments s (docSet uri text (documents s))) uri text)
      as (F1 & _ & _).
    pose proof (onDidChangeContent_cache
                  (withDocuments s (docSet uri text (documents s))) uri text)
      as F4.
    simpl in *. rewrite C in F4. rewrite F1, F4. auto.
  - destruct (docGet uri (documents s)) eqn:G; [|auto].
    pose proof (onDidChangeContent_frame
                  (withDocuments s (docSet uri text (documents s))) uri text)
      as (F1 & _ & _).
    pose proof (onDidChangeContent_cache
                  (withDocuments s (docSet uri text (documents s))) uri text)
      as F4.
    simpl in *. rewrite C in F4. rewrite F1, F4. auto.
  - destruct (docGet uri (documents s)) eqn:G; [|auto].
    simpl. rewrite I. split; [exact C|]. apply delete_empty.
  - unfold onDidChangeConfiguration. rewrite C.
    pose proof (validateAll_cache
                  (withGlobalSettings s
                     (match settings with
                      | Some x => x
                      | None => defaultSettings
                      end))) as (V1 & _ & V3).
    simpl in *. rewrite C in V3. rewrite V1, V3. auto.
Qed.

End CacheLemmas.

(** ** Diagnostics of the two scans *)

Section ScanClaims.

Variable position_of : list Z -> nat -> Position.

Lemma changeContentDiagnostics_matches settings text :
  changeContentDiagnostics position_of settings text
  = map (fun m => diagnosticOf position_of Error text (fst m) (snd m))
        (execAll 1000 operatorPattern text 0).
Proof.
  unfold changeContentDiagnostics.
  rewrite (scanLoop_execAll position_of _ _ _ _ 1000) by reflexivity.
  reflexivity.
Qed.

Lemma validateDiagnostics_matches settings text :
  validateDiagnostics position_of settings text
  = map (fun m => diagnosticOf position_of Warning text (fst m) (snd m))
        (execAll (Z.to_nat (maxNumberOfProblems settings))
                 uppercasePattern text 0).
Proof.
  unfold validateDiagnostics.
  rewrite (scanLoop_execAll position_of _ _ _ _
             (Z.to_nat (maxNumberOfProblems settings)))
    by (f_equal; lia).
  reflexivity.
Qed.

(** C3, as amended. The uppercase scan produces at most
    [max 0 maxNumberOfProblems] warnings, whatever the text. *)
Theorem warning_count_bounded settings text :
  (Z.of_nat (length (validateDiagnostics position_of settings text))
   <= Z.max 0 (maxNumberOfProblems settings))%Z.
Proof.
  rewrite validateDiagnostics_matches, length_map.
  pose proof (execAll_length (Z.to_nat (maxNumberOfProblems settings))
                             uppercasePattern text 0).
  lia.
Qed.

(** C4, as amended. A text with no two adjacent uppercase letters and with
    no unit of the pattern's class (an operator or a bar) between two white
    space units gets no diagnostic from either scan. *)
Theorem no_pattern_no_diagnostics settings text :
  hasUppercaseRun text = false ->
  hasSurrounded isWhiteSpace isOperatorClass text = false ->
  changeContentDiagnostics position_of settings text = [] /\
  validateDiagnostics position_of settings text = [].
Proof.
  intros Hu Ho. split.
  - rewrite changeContentDiagnostics_matches. simpl.
    rewrite (exec_operatorPattern_None _ _ Ho). reflexivity.
  - rewrite validateDiagnostics_matches.
    destruct (Z.to_nat (maxNumberOfProblems settings)); simpl;
      [reflexivity|].
    rewrite (exec_uppercasePattern_None _ _ Hu). reflexivity.
Qed.

(** C8. Both loops are total functions of the text. A non-match ends a
    loop with the diagnostics collected so far; every match is non-empty
    and lies in the text after [lastIndex], so the operator loop pushes at
    most a third, the uppercase loop at most half, as many diagnostics as
    the text has units, whatever the limits are. *)
Theorem scans_make_progress settings text :
  (forall lastIndex index e,
      exec operatorPattern text lastIndex = Some (index, e) ->
      lastIndex <= index /\ index < e /\ e <= length text) /\
  (forall lastIndex index e,
      exec uppercasePattern text lastIndex = Some (index, e) ->
      lastIndex <= index /\ index < e /\ e <= length text) /\
  (forall pattern limit sev lastIndex problems diagnostics,
      exec pattern text lastIndex = None ->
      scanLoop position_of pattern limit sev text lastIndex problems
               diagnostics = diagnostics) /\
  3 * length (changeContentDiagnostics position_of settings text)
    <= length text /\
  2 * length (validateDiagnostics position_of settings text)
    <= length text.
Proof.
  repeat split.
  - apply exec_operatorPattern in H. lia.
  - apply exec_operatorPattern in H. lia.
  - apply exec_operatorPattern in H. lia.
  - apply exec_uppercasePattern in H. lia.
  - apply exec_uppercasePattern in H. lia.
  - apply exec_uppercasePattern in H. lia.
  - intros pattern limit sev lastIndex problems diagnostics H.
    simp scanLoop. rewrite H. reflexivity.
  - rewrite changeContentDiagnostics_matches, length_map.
    pose proof (execAll_progress 3 operatorPattern text) as P.
    specialize (P ltac:(intros ? ? ? E; apply exec_operatorPattern in E; lia)
                  1000 0).
    lia.
  - rewrite validateDiagnostics_matches, length_map.
    pose proof (execAll_progress 2 uppercasePattern text) as P.
    specialize (P ltac:(intros ? ? ? E; apply exec_uppercasePattern in E; lia)
                  (Z.to_nat (maxNumberOfProblems settings)) 0).
    lia.
Qed.

(** C9. The operator scan of the content-change handler publishes at most
    1000 errors, and the same ones whatever the settings, the client's
    configuration and the server's state are. *)
Theorem error_count_bounded_by_1000 client1 client2 s1 s2 settings1 settings2
        uri text :
  length (changeContentDiagnostics position_of settings1 text) <= 1000 /\
  changeContentDiagnostics position_of settings1 text
  = changeContentDiagnostics position_of settings2 text /\
  lastDiagnostics uri
    (outbox (onDidChangeContent position_of client1 s1 uri text))
  = Some (changeContentDiagnostics position_of settings1 text) /\
  lastDiagnostics uri
    (outbox (onDidChangeContent position_of client1 s1 uri text))
  = lastDiagnostics uri
      (outbox (onDidChangeContent position_of client2 s2 uri text)).
Proof.
  repeat split.
  - rewrite changeContentDiagnostics_matches, length_map.
    apply execAll_length.
  - apply onDidChangeContent_publishes.
  - rewrite !onDidChangeContent_publishes. reflexivity.
Qed.

End ScanClaims.

(** ** The settings cache and the open documents *)

Section CacheClaims.

Variable position_of : list Z -> nat -> Position.

Lemma run_cache capability ns :
  forall s,
    hasConfigurationCapability s = capability ->
    (if capability then dom (documentSettings s) = openUris s
     else documentSettings s = ∅) ->
    hasConfigurationCapability (run position_of s ns) = capability /\
    if capability
    then dom (documentSettings (run position_of s ns))
         = openUris (run position_of s ns)
    else documentSettings (run position_of s ns) = ∅.
Proof.
  induction ns as [|[client n] ns IH]; intros s C I; simpl; [auto|].
  apply IH; destruct capability.
  - apply (step_cache_capable position_of client s n C I).
  - apply (step_cache_incapable position_of client s n C I).
  - apply (step_cache_capable position_of client s n C I).
  - apply (step_cache_incapable position_of client s n C I).
Qed.

(** C2, as amended. When the client supports configuration requests, the
    cached URIs are exactly the open documents' URIs after every
    notification of a session, and every notification (open, change, close,
    configuration change) preserves this. When it does not, the cache stays
    empty whatever is open. *)
Theorem cache_keys_are_open_uris capability ns :
  (let s := run position_of (initialized capability) ns in
   hasConfigurationCapability s = capability /\
   if capability then dom (documentSettings s) = openUris s
   else documentSettings s = ∅) /\
  (forall client s n,
      hasConfigurationCapability s = true ->
      dom (documentSettings s) = openUris s ->
      dom (documentSettings (step position_of client s n))
      = openUris (step position_of client s n)).
Proof.
  split.
  - apply run_cache; [reflexivity|].
    destruct capability; [|reflexivity].
    unfold openUris; simpl. set_solver.
  - intros client s n C I.
    apply (step_cache_capable position_of client s n C I).
Qed.

End CacheClaims.

(** C7. Closing a document deletes its entry from the cache and nothing
    else of the state; the next lookup for that URI does not see the old
    entry: with the capability it asks the client and caches the answer,
    without it it returns the global settings. *)
Theorem close_removes_only_that_entry client s uri :
  documentSettings (onDidClose s uri) !! uri = None /\
  (forall other, other <> uri ->
     documentSettings (onDidClose s uri) !! other = documentSettings s !! other) /\
  hasConfigurationCapability (onDidClose s uri) = hasConfigurationCapability s /\
  globalSettings (onDidClose s uri) = globalSettings s /\
  documents (onDidClose s uri) = documents s /\
  outbox (onDidClose s uri) = outbox s /\
  snd (getDocumentSettings client (onDidClose s uri) uri)
  = (if hasConfigurationCapability s then client uri else globalSettings s) /\
  (hasConfigurationCapability s = true ->
   outbox (fst (getDocumentSettings client (onDidClose s uri) uri))
   = outbox s ++ [GetConfiguration uri] /\
   documentSettings (fst (getDocumentSettings client (onDidClose s uri) uri))
     !! uri = Some (client uri)).
Proof.
  unfold onDidClose, getDocumentSettings; simpl.
  repeat split.
  - apply lookup_delete_eq.
  - intros other Hne. apply lookup_delete_ne. congruence.
  - destruct (hasConfigurationCapability s); simpl; [|reflexivity].
    rewrite lookup_delete_eq. reflexivity.
  - rewrite H. simpl. rewrite lookup_delete_eq. reflexivity.
  - rewrite H. simpl. rewrite lookup_delete_eq. simpl.
    apply lookup_insert_eq.
Qed.

(** ** Completion *)

(** C5. The completion handler answers every request with the same list,
    whatever the position asked for and whatever the server's state (its
    documents among it) is. *)
Theorem completion_is_constant s1 s2 params1 params2 :
  onCompletion params1 = onCompletion params2 /\
  respond s1 (Completion params1) = respond s2 (Completion params2).
Proof. split; reflexivity. Qed.

(** C6. The resolve handler returns the item it is given. *)
Theorem resolve_is_identity s item :
  onCompletionResolve item = item /\
  respond s (CompletionResolve item) = ResolvedItem item.
Proof. split; reflexivity. Qed.

(** ** The claims on concrete inputs *)


(** A session on "AB + CD": the open publishes the error alone; a
    configuration change then publishes the two warnings in its place. *)
Example AB_plus_CD_session :
  let opened :=
    run lineColumn (initialized true)
        [(fiveProblems, DidOpenTextDocument "a.8xp" (utf16 "AB + CD"))] in
  let reconfigured :=
    run lineColumn opened [(fiveProblems, DidChangeConfiguration None)] in
  (map severity <$> lastDiagnostics "a.8xp" (outbox opened)) = Some [Error] /\
  (map severity <$> lastDiagnostics "a.8xp" (outbox reconfigured))
  = Some [Warning; Warning].
Proof. split; vm_compute; reflexivity. Qed.

(** Without the capability an open document has no cache entry. *)
Lemma cache_empty_without_capability :
  dom (documentSettings
         (run lineColumn (initialized false)
              [(fiveProblems, DidOpenTextDocument "a.8xp" (utf16 "AB + CD"))]))
  <> openUris
       (run lineColumn (initialized false)
            [(fiveProblems, DidOpenTextDocument "a.8xp" (utf16 "AB + CD"))]).
Proof.
  intros H.
  assert (Hin : "a.8xp" ∈ openUris
            (run lineColumn (initialized false)
               [(fiveProblems, DidOpenTextDocument "a.8xp" (utf16 "AB + CD"))]))
    by (unfold openUris; simpl; set_solver).
  rewrite <- H in Hin. simpl in Hin. set_solver.
Qed.

Lemma cache_keys_are_open_uris_witness :
  dom (documentSettings
         (step lineColumn fiveProblems sampleServer (DidCloseTextDocument "a.8xp")))
  = openUris
      (step lineColumn fiveProblems sampleServer (DidCloseTextDocument "a.8xp")).
Proof.
  apply (cache_keys_are_open_uris lineColumn true []).
  - reflexivity.
  - unfold openUris, sampleServer; simpl.
    rewrite !dom_insert_L, dom_empty_L. set_solver.
Defined.

(** With a negative limit the scan produces no warning, which is more than
    the limit. *)
Lemma warning_count_negative_limit :
  ~ (Z.of_nat (length (validateDiagnostics lineColumn
                         {| maxNumberOfProblems := -1 |} (utf16 "AB")))
     <= maxNumberOfProblems {| maxNumberOfProblems := -1 |})%Z.
Proof. vm_compute. intros H. apply H. reflexivity. Qed.

(** The limit cuts the warnings short: three matches, two warnings. *)
Example warning_count_cut :
  length (execAll 3 uppercasePattern (utf16 "AB CD EF") 0) = 3 /\
  length (validateDiagnostics lineColumn {| maxNumberOfProblems := 2 |}
            (utf16 "AB CD EF")) = 2.
Proof. split; reflexivity. Qed.

(** An operator between two tabs: no uppercase run, no operator between two
    spaces, and yet an error. *)
Lemma tab_surrounded_operator_flagged :
  hasUppercaseRun tabbedSum = false /\
  hasSurrounded isSpace isOperator tabbedSum = false /\
  changeContentDiagnostics lineColumn defaultSettings tabbedSum <> [].
Proof. repeat split. vm_compute. discriminate. Qed.

Lemma no_pattern_no_diagnostics_witness :
  changeContentDiagnostics lineColumn defaultSettings (utf16 "Disp a+b") = [] /\
  validateDiagnostics lineColumn defaultSettings (utf16 "Disp a+b") = [].
Proof. apply no_pattern_no_diagnostics; reflexivity. Defined.

Lemma scans_make_progress_witness :
  (0 <= 2 /\ 2 < 5 /\ 5 <= length (utf16 "AB + CD")) /\
  (3 <= 5 /\ 5 < 7 /\ 7 <= length (utf16 "AB + CD")) /\
  scanLoop lineColumn operatorPattern 1000 Error (utf16 "AB + CD") 5 1 [] = [].
Proof.
  destruct (scans_make_progress lineColumn defaultSettings (utf16 "AB + CD"))
    as (A & B & C & _).
  split; [apply (A 0 2 5); reflexivity|].
  split; [apply (B 3 5 7); reflexivity|].
  apply C. reflexivity.
Defined.

Lemma close_removes_only_that_entry_witness :
  documentSettings (onDidClose sampleServer "a.8xp") !! "b.8xp"
  = documentSettings sampleServer !! "b.8xp" /\
  outbox (fst (getDocumentSettings fiveProblems
                 (onDidClose sampleServer "a.8xp") "a.8xp"))
  = outbox sampleServer ++ [GetConfiguration "a.8xp"] /\
  documentSettings (fst (getDocumentSettings fiveProblems
                           (onDidClose sampleServer "a.8xp") "a.8xp"))
    !! "a.8xp" = Some (fiveProblems "a.8xp").
Proof.
  destruct (close_removes_only_that_entry fiveProblems sampleServer "a.8xp")
    as (_ & F & _ & _ & _ & _ & _ & L).
  split; [apply F; discriminate|apply L; reflexivity].
Defined.

(** The stale entry of ["a.8xp"] allowed one problem; after the close the
    lookup answers with the client's five. *)
Example close_then_lookup_is_fresh :
  snd (getDocumentSettings fiveProblems sampleServer "a.8xp")
  = {| maxNumberOfProblems := 1 |} /\
  snd (getDocumentSettings fiveProblems (onDidClose sampleServer "a.8xp") "a.8xp")
  = {| maxNumberOfProblems := 5 |}.
Proof. split; vm_compute; reflexivity. Qed.

Example completion_list_size :
  length (onCompletion {| textDocument := "a.8xp";
                          position := {| line := 0; character := 0 |} |}) = 424.
Proof. reflexivity. Qed.

(** The patterns on sample texts: [\b] rejects runs glued to letters,
    digits or underscores, and the operator pattern needs a word character
    on both outer sides. *)
Example uppercasePattern_sample :
  exec uppercasePattern (utf16 "xABC ABCd AB_ 9AB -ABC-") 0 = Some (19, 22).
Proof. reflexivity. Qed.

Example operatorPattern_samples :
  exec operatorPattern (utf16 "AB + CD") 0 = Some (2, 5) /\
  exec operatorPattern (utf16 "A | B") 0 = Some (1, 4) /\
  exec operatorPattern (utf16 " + B") 0 = None /\
  exec operatorPattern (utf16 "A  +  B") 0 = None /\
  exec operatorPattern (utf16 "A+B") 0 = None.
Proof. repeat split. Qed.

Example lineColumn_sample :
  lineColumn [97; 98; 10; 99; 100]%Z 4 = {| line := 1; character := 1 |} /\
  positionAt lineColumn [97; 98; 10; 99; 100]%Z (-1)
  = {| line := 0; character := 0 |} /\
  positionAt lineColumn [97; 98; 10; 99; 100]%Z 9
  = {| line := 1; character := 2 |}.
Proof. repeat split. Qed.

(** * Further properties *)

(** ** Character classes *)

Ltac unfold_classes :=
  unfold isWhiteSpace, isOperatorClass, isWordChar, isUpper in *;
  repeat match goal with
         | H : _ || _ = true |- _ => apply orb_true_iff in H; destruct H as [H|H]
         | H : _ && _ = true |- _ => apply andb_true_iff in H; destruct H
         | H : (_ <=? _)%Z = true |- _ => apply Z.leb_le in H
         | H : (_ =? _)%Z = true |- _ => apply Z.eqb_eq in H
         end.

Lemma isWhiteSpace_not_word c : isWhiteSpace c = true -> isWordChar c = false.
Proof.
  intros H. destruct (isWordChar c) eqn:W; [|reflexivity].
  exfalso. unfold_classes; lia.
Qed.

Lemma isOperatorClass_not_word c :
  isOperatorClass c = true -> isWordChar c = false.
Proof.
  intros H. destruct (isWordChar c) eqn:W; [|reflexivity].
  exfalso. unfold_classes; lia.
Qed.

Lemma isOperatorClass_not_space c :
  isOperatorClass c = true -> isWhiteSpace c = false.
Proof.
  intros H. destruct (isWhiteSpace c) eqn:W; [|reflexivity].
  exfalso. unfold_classes; lia.
Qed.

Lemma isUpper_word c : isUpper c = true -> isWordChar c = true.
Proof. intros H. unfold isWordChar. rewrite H. reflexivity. Qed.

Lemma unitSatisfies_Some p text i :
  unitSatisfies p text i = true ->
  exists c, nth_error text i = Some c /\ p c = true.
Proof.
  unfold unitSatisfies. destruct (nth_error text i) as [c|]; [|discriminate].
  intros H. exists c. auto.
Qed.

Lemma isWordAt_unit text i c :
  nth_error text i = Some c -> isWordAt text i = isWordChar c.
Proof. unfold isWordAt. intros ->. reflexivity. Qed.

(** ** Where the patterns match *)

(** The operator pattern matches at [S j] exactly when a white space, a unit
    of the class and a white space stand between two word characters from
    [j] on; it never matches at offset 0. *)
Lemma operatorPattern_match_iff text i e :
  rmatch operatorPattern text i Some = Some e <->
  exists j, i = S j /\ e = j + 4 /\ flankedOperatorAt text j = true.
Proof.
  split.
  - intros H. pose proof H as H0. apply operatorPattern_match in H0.
    destruct H0 as (-> & x & y & z & Hx & Hy & Hz & Wx & Oy & Wz).
    revert H. unfold operatorPattern; cbn [rmatch].
    destruct (atBoundary text i) eqn:B1; [|discriminate].
    rewrite Hx, Wx. replace (S i) with (i + 1) by lia. rewrite Hy, Oy.
    replace (S (i + 1)) with (i + 2) by lia. rewrite Hz, Wz.
    destruct (atBoundary text (S (i + 2))) eqn:B2; [|discriminate].
    intros _. unfold atBoundary in B1, B2.
    rewrite (isWordAt_unit _ _ _ Hx), (isWhiteSpace_not_word _ Wx) in B1.
    rewrite (isWordAt_unit _ _ _ Hz), (isWhiteSpace_not_word _ Wz) in B2.
    destruct i as [|j]; [discriminate|]. rewrite xorb_false_r in B1.
    simpl in B2. exists j. split; [reflexivity|]. split; [lia|].
    match type of B2 with
    | isWordAt text ?a = true => replace a with (j + 4) in B2 by lia
    end.
    replace (S j) with (j + 1) in Hx by lia.
    replace (S j + 1) with (j + 2) in Hy by lia.
    replace (S j + 2) with (j + 3) in Hz by lia.
    unfold flankedOperatorAt, unitSatisfies.
    rewrite Hx, Wx, Hy, Oy, Hz, Wz, B1, B2. reflexivity.
  - intros (j & -> & -> & H). unfold flankedOperatorAt in H.
    apply andb_true_iff in H. destruct H as [H B2].
    apply andb_true_iff in H. destruct H as [H Wz].
    apply andb_true_iff in H. destruct H as [H Oy].
    apply andb_true_iff in H. destruct H as [B1 Wx].
    apply unitSatisfies_Some in Wx, Oy, Wz.
    destruct Wx as (x & Hx & Wx). destruct Oy as (y & Hy & Oy).
    destruct Wz as (z & Hz & Wz).
    replace (j + 1) with (S j) in Hx by lia.
    replace (j + 2) with (S (S j)) in Hy by lia.
    replace (j + 3) with (S (S (S j))) in Hz by lia.
    replace (j + 4) with (S (S (S (S j)))) in * by lia.
    unfold operatorPattern; cbn [rmatch]. unfold atBoundary.
    rewrite (isWordAt_unit _ _ _ Hx), (isWhiteSpace_not_word _ Wx), B1.
    simpl xorb. cbv iota. rewrite Hx, Wx, Hy, Oy, Hz, Wz.
    rewrite (isWordAt_unit _ _ _ Hz), (isWhiteSpace_not_word _ Wz), B2.
    reflexivity.
Qed.

Lemma runLength_exact p l n :
  (forall j, j < n -> unitSatisfies p l j = true) ->
  unitSatisfies p l n = false ->
  runLength p l = n.
Proof.
  revert n. induction l as [|a l IH]; intros n Hall Hend.
  - destruct n; [reflexivity|]. specialize (Hall 0 ltac:(lia)). discriminate.
  - destruct n as [|n]; simpl.
    + unfold unitSatisfies in Hend. simpl in Hend. rewrite Hend. reflexivity.
    + pose proof (Hall 0 ltac:(lia)) as H0. unfold unitSatisfies in H0.
      simpl in H0. rewrite H0. f_equal. apply IH.
      * intros j Hj. apply (Hall (S j)). lia.
      * exact Hend.
Qed.

Lemma unitSatisfies_skipn p text i j :
  unitSatisfies p (skipn i text) j = unitSatisfies p text (i + j).
Proof. unfold unitSatisfies. rewrite nth_error_skipn_add. reflexivity. Qed.

Lemma runLength_units p l j :
  j < runLength p l -> unitSatisfies p l j = true.
Proof.
  intros H. apply runLength_nth in H. destruct H as (x & Hx & Px).
  unfold unitSatisfies. rewrite Hx. exact Px.
Qed.

Lemma runLength_end p l : unitSatisfies p l (runLength p l) = false.
Proof.
  induction l as [|a l IH]; simpl; [reflexivity|].
  destruct (p a) eqn:Pa; [exact IH|].
  unfold unitSatisfies. simpl. exact Pa.
Qed.

Lemma forallb_seq_units p text i n :
  forallb (fun j => unitSatisfies p text (i + j)) (seq 0 n) = true <->
  forall j, j < n -> unitSatisfies p text (i + j) = true.
Proof.
  rewrite forallb_forall. split.
  - intros H j Hj. apply H, in_seq. lia.
  - intros H j Hj. apply in_seq in Hj. apply H. lia.
Qed.

(** The uppercase pattern matches at [i] exactly on the whole words of at
    least two uppercase letters that start there; the match is the longest
    run of uppercase letters from [i]. *)
Lemma uppercasePattern_match_iff text i e :
  rmatch uppercasePattern text i Some = Some e <->
  exists n, e = i + n /\ uppercaseWordAt text i n = true.
Proof.
  split.
  - unfold uppercasePattern; cbn [rmatch].
    destruct (atBoundary text i) eqn:B1; [|discriminate].
    intros H. apply tryDown_Some in H. destruct H as (n & Hn & Hk).
    destruct (atBoundary text (i + n)) eqn:B2; [|discriminate].
    injection Hk as <-. exists n. split; [reflexivity|].
    assert (U : forall j, j < n -> unitSatisfies isUpper text (i + j) = true).
    { intros j Hj. rewrite <- unitSatisfies_skipn. apply runLength_units. lia. }
    unfold uppercaseWordAt.
    rewrite (proj2 (Nat.leb_le 2 n)) by lia.
    rewrite (proj2 (forallb_seq_units isUpper text i n) U). simpl.
    unfold atBoundary in B1, B2.
    pose proof (U 0 ltac:(lia)) as U0. apply unitSatisfies_Some in U0.
    destruct U0 as (c & Hc & Uc). replace (i + 0) with i in Hc by lia.
    rewrite (isWordAt_unit _ _ _ Hc), (isUpper_word _ Uc) in B1.
    pose proof (U (n - 1) ltac:(lia)) as U1. apply unitSatisfies_Some in U1.
    destruct U1 as (d & Hd & Ud).
    replace (i + n) with (S (i + (n - 1))) in B2 at 1 by lia.
    rewrite (isWordAt_unit _ _ _ Hd), (isUpper_word _ Ud) in B2.
    rewrite xorb_true_r in B1. simpl in B2.
    rewrite B1. destruct (isWordAt text (i + n)); [discriminate|reflexivity].
  - intros (n & -> & H). unfold uppercaseWordAt in H.
    apply andb_true_iff in H. destruct H as [H B2].
    apply andb_true_iff in H. destruct H as [H B1].
    apply andb_true_iff in H. destruct H as [Hn U].
    apply Nat.leb_le in Hn.
    pose proof (proj1 (forallb_seq_units isUpper text i n) U) as U'.
    clear U. rename U' into U.
    apply negb_true_iff in B1, B2.
    assert (R : runLength isUpper (skipn i text) = n).
    { apply runLength_exact.
      - intros j Hj. rewrite unitSatisfies_skipn. apply U, Hj.
      - rewrite unitSatisfies_skipn. unfold unitSatisfies.
        unfold isWordAt in B2. destruct (nth_error text (i + n)) as [c|];
          [|reflexivity].
        destruct (isUpper c) eqn:Uc; [|reflexivity].
        rewrite (isUpper_word _ Uc) in B2. discriminate. }
    pose proof (U 0 ltac:(lia)) as U0. apply unitSatisfies_Some in U0.
    destruct U0 as (c & Hc & Uc). replace (i + 0) with i in Hc by lia.
    pose proof (U (n - 1) ltac:(lia)) as U1. apply unitSatisfies_Some in U1.
    destruct U1 as (d & Hd & Ud).
    unfold uppercasePattern; cbn [rmatch]. unfold atBoundary at 1.
    rewrite (isWordAt_unit _ _ _ Hc), (isUpper_word _ Uc), B1. simpl.
    rewrite R, tryDown_unfold.
    rewrite (proj2 (Nat.ltb_ge n 2)) by lia.
    unfold atBoundary. replace (i + n) with (S (i + (n - 1))) at 1 by lia.
    rewrite (isWordAt_unit _ _ _ Hd), (isUpper_word _ Ud), B2. reflexivity.
Qed.

(** ** The search of [exec] *)

Lemma search_leftmost r text i n a e :
  search r text i n = Some (a, e) ->
  forall j, i <= j < a -> rmatch r text j Some = None.
Proof.
  revert i. induction n as [|n IH]; intros i; simpl;
    destruct (rmatch r text i Some) eqn:M.
  - intros [= <- <-] j Hj. lia.
  - discriminate.
  - intros [= <- <-] j Hj. lia.
  - intros H j Hj. destruct (Nat.eq_dec j i) as [->|Hne]; [exact M|].
    apply (IH _ H). lia.
Qed.

Lemma search_None r text i n :
  search r text i n = None ->
  forall j, i <= j <= i + n -> rmatch r text j Some = None.
Proof.
  revert i. induction n as [|n IH]; intros i; simpl;
    destruct (rmatch r text i Some) eqn:M; try discriminate.
  - intros _ j Hj. replace j with i by lia. exact M.
  - intros H j Hj. destruct (Nat.eq_dec j i) as [->|Hne]; [exact M|].
    apply (IH _ H). lia.
Qed.

(** [exec] returns the leftmost match at or after [lastIndex]. *)
Lemma exec_leftmost r text lastIndex a e :
  exec r text lastIndex = Some (a, e) ->
  forall j, lastIndex <= j < a -> rmatch r text j Some = None.
Proof.
  unfold exec. destruct (lastIndex <=? length text); [|discriminate].
  apply search_leftmost.
Qed.

Lemma exec_None r text lastIndex :
  exec r text lastIndex = None ->
  forall j, lastIndex <= j <= length text -> rmatch r text j Some = None.
Proof.
  unfold exec. destruct (Nat.leb_spec lastIndex (length text)) as [L|L].
  - intros H j Hj. apply (search_None _ _ _ _ H). lia.
  - intros _ j Hj. lia.
Qed.

(** A match at or after [lastIndex] is found, or one before it is. *)
Lemma exec_finds r text lastIndex a e :
  lastIndex <= a <= length text ->
  rmatch r text a Some = Some e ->
  exists a' e', exec r text lastIndex = Some (a', e') /\
                a' <= a /\ (a' = a -> e' = e).
Proof.
  intros Ha M. destruct (exec r text lastIndex) as [[a' e']|] eqn:E.
  - exists a', e'. split; [reflexivity|].
    destruct (Nat.lt_ge_cases a a') as [L|L].
    + rewrite (exec_leftmost _ _ _ _ _ E a) in M by lia. discriminate.
    + split; [exact L|]. intros ->. apply exec_Some in E.
      destruct E as [_ E]. congruence.
  - rewrite (exec_None _ _ _ E a Ha) in M. discriminate.
Qed.

(** ** The list of all matches *)

Section Matches.

Variable pattern : regex.
Variable text : list Z.

(** Every match is non-empty and inside the text. *)
Hypothesis progress :
  forall lastIndex index e,
    exec pattern text lastIndex = Some (index, e) ->
    index < e /\ e <= length text.

(** No match starts inside another one. *)
Hypothesis apart :
  forall a e a' e',
    rmatch pattern text a Some = Some e ->
    rmatch pattern text a' Some = Some e' ->
    a < a' -> e <= a'.

Lemma execAll_stable n :
  forall lastIndex m,
    length text - lastIndex < n -> n <= m ->
    execAll m pattern text lastIndex = execAll n pattern text lastIndex.
Proof.
  induction n as [|n IH]; intros lastIndex m Hn Hm; [lia|].
  destruct m as [|m]; [lia|]. simpl.
  destruct (exec pattern text lastIndex) as [[index e]|] eqn:E; [|reflexivity].
  f_equal. destruct (progress _ _ _ E) as [P1 P2].
  apply exec_Some in E. apply IH; lia.
Qed.

Lemma execAll_lower n :
  forall lastIndex,
    Forall (fun m => lastIndex <= fst m /\ fst m < snd m <= length text)
           (execAll n pattern text lastIndex).
Proof.
  induction n as [|n IH]; intros lastIndex; simpl; [constructor|].
  destruct (exec pattern text lastIndex) as [[index e]|] eqn:E; [|constructor].
  destruct (progress _ _ _ E) as [P1 P2]. apply exec_Some in E.
  constructor; [simpl; lia|].
  eapply Forall_impl; [apply (IH e)|]. simpl. intros m Hm. lia.
Qed.

(** Successive matches follow each other without overlap. *)
Lemma execAll_sorted n :
  forall lastIndex,
    StronglySorted (fun m1 m2 => snd m1 <= fst m2)
                   (execAll n pattern text lastIndex).
Proof.
  induction n as [|n IH]; intros lastIndex; simpl; [constructor|].
  destruct (exec pattern text lastIndex) as [[index e]|] eqn:E; [|constructor].
  constructor; [apply IH|].
  eapply Forall_impl; [apply (execAll_lower n e)|]. simpl. intros m Hm. lia.
Qed.

Lemma execAll_sound n lastIndex a e :
  In (a, e) (execAll n pattern text lastIndex) ->
  rmatch pattern text a Some = Some e.
Proof.
  intros H. apply execAll_In in H. destruct H as (l & E).
  apply exec_Some in E. tauto.
Qed.

(** With enough calls every match of the text at or after [lastIndex] is
    found. *)
Lemma execAll_complete n :
  forall lastIndex a e,
    length text - lastIndex < n ->
    lastIndex <= a <= length text ->
    rmatch pattern text a Some = Some e ->
    In (a, e) (execAll n pattern text lastIndex).
Proof.
  induction n as [|n IH]; intros lastIndex a e Hn Ha M; [lia|]. simpl.
  destruct (exec_finds _ _ _ _ _ Ha M) as (a' & e' & E & Hle & Heq).
  rewrite E. destruct (Nat.eq_dec a' a) as [->|Hne].
  - left. rewrite (Heq eq_refl). reflexivity.
  - right. destruct (progress _ _ _ E) as [P1 P2].
    pose proof E as E'. apply exec_Some in E'. destruct E' as [L M'].
    pose proof (apart _ _ _ _ M' M ltac:(lia)).
    apply IH; [lia|lia|exact M].
Qed.

Lemma allMatches_iff a e :
  In (a, e) (allMatches pattern text) <->
  a <= length text /\ rmatch pattern text a Some = Some e.
Proof.
  unfold allMatches. split.
  - intros H. split; [|apply (execAll_sound _ _ _ _ H)].
    pose proof (execAll_lower (S (length text)) 0) as F.
    rewrite List.Forall_forall in F. specialize (F _ H). simpl in F. lia.
  - intros [Ha M]. apply execAll_complete; [lia|lia|exact M].
Qed.

End Matches.

Lemma operatorPattern_progress text lastIndex index e :
  exec operatorPattern text lastIndex = Some (index, e) ->
  index < e /\ e <= length text.
Proof. intros H. apply exec_operatorPattern in H. lia. Qed.

Lemma uppercasePattern_progress text lastIndex index e :
  exec uppercasePattern text lastIndex = Some (index, e) ->
  index < e /\ e <= length text.
Proof. intros H. apply exec_uppercasePattern in H. lia. Qed.

Lemma flankedOperatorAt_units text j :
  flankedOperatorAt text j = true ->
  isWordAt text j = true /\
  unitSatisfies isWhiteSpace text (j + 1) = true /\
  unitSatisfies isOperatorClass text (j + 2) = true /\
  unitSatisfies isWhiteSpace text (j + 3) = true /\
  isWordAt text (j + 4) = true.
Proof.
  unfold flankedOperatorAt. rewrite !andb_true_iff. tauto.
Qed.

Lemma unit_not_word p text i :
  (forall c, p c = true -> isWordChar c = false) ->
  unitSatisfies p text i = true -> isWordAt text i = false.
Proof.
  intros Hp H. apply unitSatisfies_Some in H. destruct H as (c & Hc & Pc).
  rewrite (isWordAt_unit _ _ _ Hc). apply Hp, Pc.
Qed.

Lemma operatorPattern_apart text a e a' e' :
  rmatch operatorPattern text a Some = Some e ->
  rmatch operatorPattern text a' Some = Some e' ->
  a < a' -> e <= a'.
Proof.
  intros M M' L.
  apply operatorPattern_match_iff in M, M'.
  destruct M as (j & -> & -> & F). destruct M' as (j' & -> & -> & F').
  apply flankedOperatorAt_units in F, F'.
  destruct F as (_ & W1 & O2 & _). destruct F' as (B' & _).
  destruct (Nat.eq_dec j' (j + 1)) as [->|N1].
  { rewrite (unit_not_word _ _ _ isWhiteSpace_not_word W1) in B'. discriminate. }
  destruct (Nat.eq_dec j' (j + 2)) as [->|N2].
  { rewrite (unit_not_word _ _ _ isOperatorClass_not_word O2) in B'. discriminate. }
  lia.
Qed.

Lemma uppercaseWordAt_units text i n :
  uppercaseWordAt text i n = true ->
  2 <= n /\
  (forall j, j < n -> unitSatisfies isUpper text (i + j) = true) /\
  match i with O => True | S k => isWordAt text k = false end /\
  isWordAt text (i + n) = false.
Proof.
  unfold uppercaseWordAt. rewrite !andb_true_iff, !negb_true_iff.
  intros (((Hn & U) & B1) & B2). apply Nat.leb_le in Hn.
  pose proof (proj1 (forallb_seq_units isUpper text i n) U) as U'.
  repeat split; try assumption. destruct i; [exact I|exact B1].
Qed.

Lemma uppercasePattern_apart text a e a' e' :
  rmatch uppercasePattern text a Some = Some e ->
  rmatch uppercasePattern text a' Some = Some e' ->
  a < a' -> e <= a'.
Proof.
  intros M M' L.
  apply uppercasePattern_match_iff in M, M'.
  destruct M as (n & -> & F). destruct M' as (n' & -> & F').
  apply uppercaseWordAt_units in F, F'.
  destruct F as (_ & U & _). destruct F' as (_ & _ & B' & _).
  destruct (Nat.le_gt_cases (a + n) a') as [H|H]; [exact H|].
  destruct a' as [|k]; [lia|].
  pose proof (U (k - a) ltac:(lia)) as Uk.
  replace (a + (k - a)) with k in Uk by lia.
  apply unitSatisfies_Some in Uk. destruct Uk as (c & Hc & Uc).
  rewrite (isWordAt_unit _ _ _ Hc), (isUpper_word _ Uc) in B'. discriminate.
Qed.

Lemma execAll_firstn pattern text n :
  forall m lastIndex,
    n <= m ->
    execAll n pattern text lastIndex
    = firstn n (execAll m pattern text lastIndex).
Proof.
  induction n as [|n IH]; intros m lastIndex Hm; [reflexivity|].
  destruct m as [|m]; [lia|]. simpl.
  destruct (exec pattern text lastIndex) as [[index e]|]; [|reflexivity].
  simpl. f_equal. apply IH. lia.
Qed.

(** The first [n] matches are the first [n] of all the matches. *)
Lemma execAll_allMatches pattern text n :
  (forall lastIndex index e,
      exec pattern text lastIndex = Some (index, e) ->
      index < e /\ e <= length text) ->
  execAll n pattern text 0 = firstn n (allMatches pattern text).
Proof.
  intros P. unfold allMatches.
  destruct (Nat.le_gt_cases n (S (length text))) as [L|L].
  - apply execAll_firstn, L.
  - rewrite (execAll_stable pattern text P (S (length text)) 0 n) by lia.
    rewrite firstn_all2; [reflexivity|].
    pose proof (execAll_length (S (length text)) pattern text 0). lia.
Qed.

(** X1. The matches of the operator pattern in a text are exactly the
    triples white space, unit of the class, white space that stand between
    two word characters: the match at [S j] to [j + 4] for every such offset
    [j], and no other. *)
Theorem operator_matches_characterised text a e :
  In (a, e) (allMatches operatorPattern text) <->
  exists j, a = S j /\ e = j + 4 /\ flankedOperatorAt text j = true.
Proof.
  rewrite (allMatches_iff operatorPattern text
             (operatorPattern_progress text) (operatorPattern_apart text)).
  rewrite operatorPattern_match_iff. split.
  - tauto.
  - intros (j & -> & -> & F). split; [|eauto].
    apply flankedOperatorAt_units in F. destruct F as (_ & _ & _ & _ & W).
    unfold isWordAt in W. destruct (nth_error text (j + 4)) eqn:N;
      [|discriminate].
    assert (j + 4 < length text) by (apply nth_error_Some; congruence). lia.
Qed.

(** X2. The matches of the uppercase pattern in a text are exactly its words
    of two or more uppercase letters: runs that no letter, digit or
    underscore touches on either side. *)
Theorem uppercase_matches_characterised text a e :
  In (a, e) (allMatches uppercasePattern text) <->
  exists n, e = a + n /\ uppercaseWordAt text a n = true.
Proof.
  rewrite (allMatches_iff uppercasePattern text
             (uppercasePattern_progress text) (uppercasePattern_apart text)).
  rewrite uppercasePattern_match_iff. split.
  - tauto.
  - intros (n & -> & F). split; [|eauto].
    apply uppercaseWordAt_units in F. destruct F as (Hn & U & _).
    pose proof (U 0 ltac:(lia)) as U0. apply unitSatisfies_Some in U0.
    destruct U0 as (c & Hc & _).
    assert (a + 0 < length text) by (apply nth_error_Some; congruence). lia.
Qed.

(** X3. The matches of either pattern come in text order and do not
    overlap: each one ends before the next one starts, is non-empty and lies
    inside the text. *)
Theorem matches_ordered_and_disjoint text :
  StronglySorted (fun m1 m2 => snd m1 <= fst m2)
                 (allMatches operatorPattern text) /\
  StronglySorted (fun m1 m2 => snd m1 <= fst m2)
                 (allMatches uppercasePattern text) /\
  Forall (fun m => fst m < snd m <= length text)
         (allMatches operatorPattern text) /\
  Forall (fun m => fst m < snd m <= length text)
         (allMatches uppercasePattern text).
Proof.
  unfold allMatches. repeat split.
  - apply execAll_sorted, operatorPattern_progress.
  - apply execAll_sorted, uppercasePattern_progress.
  - eapply Forall_impl;
      [apply (execAll_lower _ _ (operatorPattern_progress text))|].
    simpl. tauto.
  - eapply Forall_impl;
      [apply (execAll_lower _ _ (uppercasePattern_progress text))|].
    simpl. tauto.
Qed.

Section ScanProperties.

Variable position_of : list Z -> nat -> Position.

(** X4. Each scan reports the matches of its pattern from the start of the
    text, in order, and stops at its limit: the errors are the diagnostics
    of the first 1000 matches of the operator pattern, the warnings those of
    the first [maxNumberOfProblems] matches of the uppercase pattern. *)
Theorem diagnostics_are_first_matches settings text :
  changeContentDiagnostics position_of settings text
  = map (fun m => diagnosticOf position_of Error text (fst m) (snd m))
        (firstn 1000 (allMatches operatorPattern text)) /\
  validateDiagnostics position_of settings text
  = map (fun m => diagnosticOf position_of Warning text (fst m) (snd m))
        (firstn (Z.to_nat (maxNumberOfProblems settings))
                (allMatches uppercasePattern text)).
Proof.
  split.
  - rewrite changeContentDiagnostics_matches.
    rewrite (execAll_allMatches _ _ _ (operatorPattern_progress text)).
    reflexivity.
  - rewrite validateDiagnostics_matches.
    rewrite (execAll_allMatches _ _ _ (uppercasePattern_progress text)).
    reflexivity.
Qed.

(** X5. An error always spans five units of the text: the word character
    before the white space, the three matched units and the word character
    after them. Its offsets [j] and [j + 5] lie in the text, so [positionAt]
    never clamps them, and its message has 28 units. *)
Theorem error_spans_five_units settings text d :
  In d (changeContentDiagnostics position_of settings text) ->
  exists j,
    flankedOperatorAt text j = true /\
    j + 5 <= length text /\
    severity d = Error /\
    range d = {| start := position_of text j;
                 end_ := position_of text (j + 5) |} /\
    message d = slice text (j + 1) (j + 4)
                ++ utf16 " is surrounded by spaces." /\
    length (message d) = 28.
Proof.
  intros H. rewrite changeContentDiagnostics_matches in H.
  apply in_map_iff in H. destruct H as ([a e] & <- & H).
  apply execAll_In in H. destruct H as (l & E).
  apply exec_Some in E. destruct E as [_ M].
  apply operatorPattern_match_iff in M. destruct M as (j & -> & -> & F).
  exists j. split; [exact F|].
  pose proof F as F'. apply flankedOperatorAt_units in F'.
  destruct F' as (_ & _ & _ & _ & W).
  unfold isWordAt in W. destruct (nth_error text (j + 4)) eqn:N;
    [|discriminate].
  assert (L : j + 4 < length text) by (apply nth_error_Some; congruence).
  unfold diagnosticOf; cbn [severity range message fst snd].
  rewrite length_slice by lia. replace (S j) with (j + 1) by lia.
  split; [lia|]. split; [reflexivity|]. split; [|split; [reflexivity|]].
  - unfold positionAt.
    replace (Z.to_nat (Z.max (Z.min (Z.of_nat (j + 1) - 1)
                                    (Z.of_nat (length text))) 0))
      with j by lia.
    replace (Z.to_nat (Z.max (Z.min (Z.of_nat (j + 1)
                                     + Z.of_nat (j + 4 - (j + 1)) + 1)
                                    (Z.of_nat (length text))) 0))
      with (j + 5) by lia.
    reflexivity.
  - rewrite length_app, length_slice by lia.
    change (length (utf16 " is surrounded by spaces.")) with 25. lia.
Qed.

(** X6. A warning names a whole uppercase word: its message is the word, two
    or more uppercase letters that no word character touches, followed by
    the fixed text. *)
Theorem warning_names_uppercase_word settings text d :
  In d (validateDiagnostics position_of settings text) ->
  exists i n,
    uppercaseWordAt text i n = true /\
    severity d = Warning /\
    message d = slice text i (i + n) ++ utf16 " is surrounded by spaces." /\
    length (slice text i (i + n)) = n /\
    forallb isUpper (slice text i (i + n)) = true.
Proof.
  intros H. rewrite validateDiagnostics_matches in H.
  apply in_map_iff in H. destruct H as ([a e] & <- & H).
  apply execAll_In in H. destruct H as (l & E).
  pose proof (uppercasePattern_progress _ _ _ _ E) as [_ Le].
  apply exec_Some in E. destruct E as [_ M].
  apply uppercasePattern_match_iff in M. destruct M as (n & -> & F).
  exists a, n. split; [exact F|].
  unfold diagnosticOf; cbn [severity range message fst snd].
  apply uppercaseWordAt_units in F. destruct F as (_ & U & _).
  split; [reflexivity|]. split; [reflexivity|]. split.
  - rewrite length_slice by lia. lia.
  - apply forallb_forall. intros c Hc. apply In_nth_error in Hc.
    destruct Hc as (j & Hj).
    assert (Lj : j < length (slice text a (a + n)))
      by (apply nth_error_Some; congruence).
    rewrite length_slice in Lj by lia.
    unfold slice in Hj. rewrite nth_error_firstn in Hj.
    destruct (Nat.ltb_spec j (a + n - a)) as [_|G]; [|lia].
    rewrite nth_error_skipn_add in Hj.
    specialize (U j ltac:(lia)). unfold unitSatisfies in U.
    rewrite Hj in U. exact U.
Qed.

End ScanProperties.

(** ** What the handlers send *)

Lemma sendAll_nil s : sendAll s [] = s.
Proof. destruct s. unfold sendAll; simpl. rewrite app_nil_r. reflexivity. Qed.

Lemma sendAll_send s out o : send (sendAll s out) o = sendAll s (out ++ [o]).
Proof. unfold send, sendAll; simpl. rewrite app_assoc. reflexivity. Qed.

Lemma sendAll_sendAll s out1 out2 :
  sendAll (sendAll s out1) out2 = sendAll s (out1 ++ out2).
Proof. unfold sendAll; simpl. rewrite app_assoc. reflexivity. Qed.

Section HandlerLemmas.

Variable position_of : list Z -> nat -> Position.
Variable client : string -> ExampleSettings.

(** A lookup asks the client only with the capability and only for a URI
    that is not cached. *)
Lemma getDocumentSettings_unfold s resource :
  getDocumentSettings client s resource
  = if hasConfigurationCapability s
    then match documentSettings s !! resource with
         | Some result => (s, result)
         | None =>
             (withDocumentSettings (sendAll s [GetConfiguration resource])
                (<[resource := client resource]> (documentSettings s)),
              client resource)
         end
    else (s, globalSettings s).
Proof.
  unfold getDocumentSettings. destruct (hasConfigurationCapability s);
    reflexivity.
Qed.

Lemma validateResume_fold settingsOf docs :
  forall s,
    foldl (validateResume position_of) s
          (map (fun doc : string * list Z => (doc, settingsOf (fst doc))) docs)
    = sendAll s (map (validation position_of settingsOf) docs).
Proof.
  induction docs as [|doc docs IH]; intros s; simpl.
  - symmetry. apply sendAll_nil.
  - rewrite IH. unfold send, sendAll, validation; simpl.
    rewrite <- app_assoc. reflexivity.
Qed.

Lemma validateStart_fold_incapable docs :
  forall s pending,
    hasConfigurationCapability s = false ->
    foldl (fun acc doc =>
             let (s1, settings) := validateStart client (fst acc) doc in
             (s1, snd acc ++ [(doc, settings)]))
          (s, pending) docs
    = (s, pending ++ map (fun doc : string * list Z => (doc, globalSettings s)) docs).
Proof.
  induction docs as [|doc docs IH]; intros s pending C; simpl.
  - rewrite app_nil_r. reflexivity.
  - unfold validateStart at 2. rewrite getDocumentSettings_unfold, C. simpl.
    rewrite (IH _ _ C), <- app_assoc. reflexivity.
Qed.

(** With the capability and nothing cached for the documents, every call
    asks the client, in the documents' order. *)
Lemma validateStart_fold_capable docs :
  forall s pending,
    hasConfigurationCapability s = true ->
    NoDup (map fst docs) ->
    (forall doc, In doc docs -> documentSettings s !! fst doc = None) ->
    foldl (fun acc doc =>
             let (s1, settings) := validateStart client (fst acc) doc in
             (s1, snd acc ++ [(doc, settings)]))
          (s, pending) docs
    = (withDocumentSettings
         (sendAll s (map (fun doc : string * list Z => GetConfiguration (fst doc)) docs))
         (foldl (fun c (doc : string * list Z) => <[fst doc := client (fst doc)]> c)
                (documentSettings s) docs),
       pending ++ map (fun doc : string * list Z => (doc, client (fst doc))) docs).
Proof.
  induction docs as [|doc docs IH]; intros s pending C N F; simpl.
  - rewrite app_nil_r, sendAll_nil. destruct s; reflexivity.
  - unfold validateStart at 2. rewrite getDocumentSettings_unfold, C.
    rewrite (F doc (or_introl eq_refl)). simpl.
    simpl in N. apply NoDup_cons in N. destruct N as [N1 N2].
    rewrite IH; [|exact C|exact N2|].
    + simpl. rewrite <- app_assoc. unfold withDocumentSettings, sendAll; simpl.
      rewrite <- app_assoc. reflexivity.
    + intros d Hd. simpl. rewrite lookup_insert_ne; [apply F; right; exact Hd|].
      intros E. apply N1. rewrite E. apply list_elem_of_In, in_map, Hd.
Qed.

Lemma refreshed_lookup docs :
  forall (c : gmap string ExampleSettings) uri,
    foldl (fun c (doc : string * list Z) =>
             <[fst doc := client (fst doc)]> c) c docs !! uri
    = if decide (uri ∈ map fst docs) then Some (client uri) else c !! uri.
Proof.
  induction docs as [|doc docs IH]; intros c uri.
  - cbn [foldl map]. destruct (decide (uri ∈ [])) as [H|H];
      [inversion H|reflexivity].
  - cbn [foldl map]. rewrite IH.
    destruct (decide (uri ∈ map fst docs)) as [H|H];
      destruct (decide (uri ∈ fst doc :: map fst docs)) as [H'|H'];
      try reflexivity.
    + exfalso. apply H'. apply list_elem_of_further, H.
    + apply elem_of_cons in H'. destruct H' as [->|H']; [|contradiction].
      apply lookup_insert_eq.
    + apply lookup_insert_ne. intros E. apply H'. rewrite E.
      apply list_elem_of_here.
Qed.

End HandlerLemmas.

(** ** Lookups in the synced documents *)

Lemma docGet_cons uri u t docs :
  docGet uri ((u, t) :: docs)
  = if String.eqb u uri then Some t else docGet uri docs.
Proof. unfold docGet; simpl. destruct (String.eqb u uri); reflexivity. Qed.


Lemma docGet_In uri docs text :
  docGet uri docs = Some text -> In uri (map fst docs).
Proof.
  induction docs as [|[u t] docs IH]; [discriminate|].
  rewrite docGet_cons. destruct (String.eqb_spec u uri) as [->|Hne].
  - intros _. left. reflexivity.
  - intros H. right. apply IH, H.
Qed.

Lemma docGet_app uri docs docs' :
  docGet uri (docs ++ docs')
  = match docGet uri docs with
    | Some t => Some t
    | None => docGet uri docs'
    end.
Proof.
  induction docs as [|[u t] docs IH]; [reflexivity|].
  rewrite <- app_comm_cons, !docGet_cons.
  destruct (String.eqb u uri); [reflexivity|exact IH].
Qed.

Lemma docGet_replace uri text u docs :
  docGet u (map (fun d : string * list Z =>
                   if String.eqb (fst d) uri then (uri, text) else d) docs)
  = match docGet u docs with
    | Some t => Some (if String.eqb uri u then text else t)
    | None => None
    end.
Proof.
  induction docs as [|[v t] docs IH]; [reflexivity|].
  cbn [map fst]. destruct (String.eqb_spec v uri) as [->|Hne].
  - rewrite !docGet_cons. destruct (String.eqb uri u); [reflexivity|exact IH].
  - rewrite !docGet_cons. destruct (String.eqb_spec v u) as [->|Hne'].
    + destruct (String.eqb_spec uri u) as [->|_]; [contradiction|reflexivity].
    + exact IH.
Qed.

(** After [documents.set(uri, text)] the document of [uri] has the new text
    and every other document its old one. *)
Lemma docGet_docSet uri text u docs :
  docGet u (docSet uri text docs)
  = if String.eqb uri u then Some text else docGet u docs.
Proof.
  unfold docSet. destruct (docGet uri docs) as [old|] eqn:G.
  - rewrite docGet_replace. destruct (String.eqb_spec uri u) as [<-|Hne].
    + rewrite G. reflexivity.
    + destruct (docGet u docs); reflexivity.
  - rewrite docGet_app. destruct (String.eqb_spec uri u) as [<-|Hne].
    + rewrite G, docGet_cons, String.eqb_refl. reflexivity.
    + rewrite docGet_cons.
      destruct (String.eqb_spec uri u) as [E|_]; [contradiction|].
      destruct (docGet u docs); reflexivity.
Qed.

Lemma docGet_docDelete uri u docs :
  docGet u (docDelete uri docs)
  = if String.eqb uri u then None else docGet u docs.
Proof.
  unfold docDelete. induction docs as [|[v t] docs IH]; simpl.
  - destruct (String.eqb uri u); reflexivity.
  - destruct (String.eqb_spec v uri) as [->|Hne]; simpl.
    + rewrite IH, docGet_cons. destruct (String.eqb uri u); reflexivity.
    + rewrite !docGet_cons, IH. destruct (String.eqb_spec v u) as [->|Hne'].
      * destruct (String.eqb_spec uri u) as [E|_]; [congruence|reflexivity].
      * reflexivity.
Qed.

Lemma docSet_NoDup uri text docs :
  NoDup (map fst docs) -> NoDup (map fst (docSet uri text docs)).
Proof.
  unfold docSet. destruct (docGet uri docs) as [old|] eqn:G; intros N.
  - replace (map fst (map (fun d : string * list Z =>
                             if String.eqb (fst d) uri
                             then (uri, text) else d) docs))
      with (map fst docs); [exact N|].
    rewrite map_map. apply map_ext. intros [u t]. simpl.
    destruct (String.eqb_spec u uri) as [->|]; reflexivity.
  - rewrite map_app. simpl. apply NoDup_app. split; [exact N|].
    split; [|apply NoDup_singleton].
    intros x Hx Hx'. apply list_elem_of_singleton in Hx'. subst x.
    destruct (docGet uri docs) eqn:G'; [discriminate|].
    apply list_elem_of_In in Hx.
    clear G. revert G'. induction docs as [|[u t] docs IH]; [inversion Hx|].
    rewrite docGet_cons. destruct (String.eqb_spec u uri) as [->|Hne];
      [discriminate|].
    intros G'. destruct Hx as [Hx|Hx]; [simpl in Hx; contradiction|].
    apply NoDup_cons in N. apply IH; tauto.
Qed.

Lemma docDelete_NoDup uri docs :
  NoDup (map fst docs) -> NoDup (map fst (docDelete uri docs)).
Proof.
  unfold docDelete. induction docs as [|[u t] docs IH]; simpl; intros N;
    [exact N|].
  apply NoDup_cons in N. destruct N as [N1 N2].
  destruct (String.eqb u uri); simpl; [apply IH, N2|].
  apply NoDup_cons. split; [|apply IH, N2].
  intros H. apply N1. apply list_elem_of_In in H. apply list_elem_of_In.
  apply in_map_iff in H. destruct H as (d & Hd & Hin).
  apply filter_In in Hin. apply in_map_iff. exists d. tauto.
Qed.

(** ** The last diagnostics of a URI *)

Lemma lastDiagnostics_app uri out out' :
  lastDiagnostics uri (out ++ out')
  = match lastDiagnostics uri out' with
    | Some ds => Some ds
    | None => lastDiagnostics uri out
    end.
Proof.
  unfold lastDiagnostics. rewrite omap_app, map_app.
  destruct (omap _ out') as [|ds l] eqn:E using rev_ind.
  - simpl. rewrite app_nil_r. reflexivity.
  - rewrite map_app. simpl. rewrite app_assoc, !last_last. reflexivity.
Qed.

Lemma lastDiagnostics_requests uri (docs : list (string * list Z)) :
  lastDiagnostics uri (map (fun doc => GetConfiguration (fst doc)) docs) = None.
Proof.
  induction docs as [|doc docs IH]; [reflexivity|].
  change (map (fun doc0 : string * list Z => GetConfiguration (fst doc0))
              (doc :: docs))
    with ([GetConfiguration (fst doc)]
          ++ map (fun doc0 : string * list Z => GetConfiguration (fst doc0)) docs).
  rewrite lastDiagnostics_app, IH. reflexivity.
Qed.



(** ** The handlers' effects *)

Section HandlerEffects.

Variable position_of : list Z -> nat -> Position.
Variable client : string -> ExampleSettings.

Lemma onDidChangeContent_unfold s uri text :
  onDidChangeContent position_of client s uri text
  = send (fst (getDocumentSettings client s uri))
         (SendDiagnostics uri
            (scanLoop position_of operatorPattern 1000 Error text 0 0 [])).
Proof.
  unfold onDidChangeContent.
  destruct (getDocumentSettings client s uri) as [s1 settings]. reflexivity.
Qed.

Lemma onDidChangeContent_outbox s uri text :
  outbox (onDidChangeContent position_of client s uri text)
  = outbox s
    ++ (if hasConfigurationCapability s
        then match documentSettings s !! uri with
             | Some _ => []
             | None => [GetConfiguration uri]
             end
        else [])
    ++ [SendDiagnostics uri
          (scanLoop position_of operatorPattern 1000 Error text 0 0 [])].
Proof.
  rewrite onDidChangeContent_unfold, getDocumentSettings_unfold.
  destruct (hasConfigurationCapability s); simpl; [|reflexivity].
  destruct (documentSettings s !! uri); simpl; [reflexivity|].
  rewrite <- app_assoc. reflexivity.
Qed.

Lemma onDidChangeConfiguration_incapable s payload :
  hasConfigurationCapability s = false ->
  onDidChangeConfiguration position_of client s payload
  = sendAll (withGlobalSettings s (default defaultSettings payload))
            (map (validation position_of
                    (fun _ => default defaultSettings payload))
                 (documents s)).
Proof.
  intros C. unfold onDidChangeConfiguration, validateAll. rewrite C.
  replace (match payload with
           | Some settings => settings
           | None => defaultSettings
           end) with (default defaultSettings payload)
    by (destruct payload; reflexivity).
  rewrite validateStart_fold_incapable by exact C.
  cbn [fst snd app].
  apply (validateResume_fold position_of
           (fun _ => default defaultSettings payload)).
Qed.

Lemma onDidChangeConfiguration_capable s payload :
  hasConfigurationCapability s = true ->
  NoDup (map fst (documents s)) ->
  onDidChangeConfiguration position_of client s payload
  = withDocumentSettings
      (sendAll s (map (fun doc : string * list Z => GetConfiguration (fst doc))
                      (documents s)
                  ++ map (validation position_of client) (documents s)))
      (foldl (fun c (doc : string * list Z) =>
                <[fst doc := client (fst doc)]> c) ∅ (documents s)).
Proof.
  intros C N. unfold onDidChangeConfiguration, validateAll. rewrite C.
  cbn [documents withDocumentSettings].
  rewrite (validateStart_fold_capable client (documents s)
             (withDocumentSettings s ∅) []);
    [|exact C|exact N|intros; apply lookup_empty].
  cbn [fst snd app].
  rewrite (validateResume_fold position_of client).
  unfold withDocumentSettings, sendAll; simpl.
  rewrite <- app_assoc. reflexivity.
Qed.

End HandlerEffects.

Section ServerProperties.

Variable position_of : list Z -> nat -> Position.

(** X7. With the capability, settings that were looked up once are reused:
    the next lookup for the same URI returns the same settings, sends no
    request and changes nothing, even when the client's configuration has
    changed in between. *)
Theorem cached_settings_are_reused client1 client2 s uri :
  hasConfigurationCapability s = true ->
  getDocumentSettings client2 (fst (getDocumentSettings client1 s uri)) uri
  = (fst (getDocumentSettings client1 s uri),
     snd (getDocumentSettings client1 s uri)).
Proof.
  intros C. rewrite (getDocumentSettings_unfold client1 s), C.
  destruct (documentSettings s !! uri) as [v|] eqn:L; cbn [fst snd].
  - rewrite getDocumentSettings_unfold, C, L. reflexivity.
  - rewrite getDocumentSettings_unfold.
    cbn [hasConfigurationCapability withDocumentSettings documentSettings
         sendAll].
    rewrite C, lookup_insert_eq. reflexivity.
Qed.

(** X8. A content change sends one publication, for the changed document and
    with the errors of its text, after at most one configuration request;
    the request is sent only with the capability and only when the URI has
    no cached settings. Nothing else of the state changes but the cache
    entry of that URI. *)
Theorem content_change_effect client s uri text settings :
  outbox (onDidChangeContent position_of client s uri text)
  = outbox s
    ++ (if hasConfigurationCapability s
        then match documentSettings s !! uri with
             | Some _ => []
             | None => [GetConfiguration uri]
             end
        else [])
    ++ [SendDiagnostics uri
          (changeContentDiagnostics position_of settings text)] /\
  documents (onDidChangeContent position_of client s uri text) = documents s /\
  globalSettings (onDidChangeContent position_of client s uri text)
  = globalSettings s /\
  (forall other, other <> uri ->
     documentSettings (onDidChangeContent position_of client s uri text)
       !! other = documentSettings s !! other).
Proof.
  split; [apply onDidChangeContent_outbox|].
  rewrite onDidChangeContent_unfold, getDocumentSettings_unfold.
  destruct (hasConfigurationCapability s); [|auto].
  destruct (documentSettings s !! uri); cbn; [auto|].
  repeat split. intros other Hne. apply lookup_insert_ne. congruence.
Qed.

(** X9. Without the capability a configuration change replaces the global
    settings by the notification's settings, or by the defaults when it
    carries none, and publishes for every open document, in order, the
    warnings of its text under the new settings; the cache and the
    documents stay as they are and no request is sent. *)
Theorem configuration_change_without_capability client s payload :
  hasConfigurationCapability s = false ->
  onDidChangeConfiguration position_of client s payload
  = {| hasConfigurationCapability := false;
       globalSettings := default defaultSettings payload;
       documentSettings := documentSettings s;
       documents := documents s;
       outbox :=
         outbox s
         ++ map (fun doc : string * list Z =>
                   SendDiagnostics (fst doc)
                     (validateDiagnostics position_of
                        (default defaultSettings payload) (snd doc)))
                (documents s) |}.
Proof.
  intros C. rewrite onDidChangeConfiguration_incapable by exact C.
  unfold sendAll, withGlobalSettings; simpl. rewrite C. reflexivity.
Qed.

(** X10. With the capability a configuration change ignores the
    notification's settings and keeps the global ones; it drops the whole
    cache, asks the client once per open document, in order, then publishes
    for every open document the warnings of its text under the client's
    answer. Afterwards exactly the open documents are cached, each with the
    client's current answer. *)
Theorem configuration_change_with_capability client s payload :
  hasConfigurationCapability s = true ->
  NoDup (map fst (documents s)) ->
  outbox (onDidChangeConfiguration position_of client s payload)
  = outbox s
    ++ map (fun doc : string * list Z => GetConfiguration (fst doc))
           (documents s)
    ++ map (fun doc : string * list Z =>
              SendDiagnostics (fst doc)
                (validateDiagnostics position_of (client (fst doc)) (snd doc)))
           (documents s) /\
  (forall uri,
      documentSettings (onDidChangeConfiguration position_of client s payload)
        !! uri
      = if decide (uri ∈ map fst (documents s))
        then Some (client uri) else None) /\
  globalSettings (onDidChangeConfiguration position_of client s payload)
  = globalSettings s /\
  documents (onDidChangeConfiguration position_of client s payload)
  = documents s.
Proof.
  intros C N. rewrite onDidChangeConfiguration_capable by assumption.
  cbn [outbox documentSettings globalSettings documents withDocumentSettings
       sendAll].
  repeat split. intros uri. rewrite refreshed_lookup.
  destruct (decide (uri ∈ map fst (documents s))); [reflexivity|].
  apply lookup_empty.
Qed.

End ServerProperties.

(** ** Sessions *)

Section SessionProperties.

Variable position_of : list Z -> nat -> Position.

Lemma validations_no_request settingsOf docs :
  forallb (fun o => negb (isGetConfiguration o))
          (map (validation position_of settingsOf) docs) = true.
Proof. induction docs as [|doc docs IH]; [reflexivity|exact IH]. Qed.

(** Without the capability a notification makes the server send
    publications only. *)
Lemma step_incapable_outbox client s n :
  hasConfigurationCapability s = false ->
  exists out,
    outbox (step position_of client s n) = outbox s ++ out /\
    forallb (fun o => negb (isGetConfiguration o)) out = true.
Proof.
  intros C. destruct n as [uri text|uri text|uri|payload]; cbn [step].
  - rewrite onDidChangeContent_outbox. cbn [hasConfigurationCapability
      withDocuments outbox]. rewrite C. eexists. split; reflexivity.
  - destruct (docGet uri (documents s)).
    + rewrite onDidChangeContent_outbox. cbn [hasConfigurationCapability
        withDocuments outbox]. rewrite C. eexists. split; reflexivity.
    + exists []. rewrite app_nil_r. split; reflexivity.
  - exists []. rewrite app_nil_r.
    destruct (docGet uri (documents s)); split; reflexivity.
  - rewrite onDidChangeConfiguration_incapable by exact C.
    eexists. split; [reflexivity|]. apply validations_no_request.
Qed.

Lemma run_incapable client_ns :
  forall s,
    hasConfigurationCapability s = false ->
    documentSettings s = ∅ ->
    forallb (fun o => negb (isGetConfiguration o)) (outbox s) = true ->
    hasConfigurationCapability (run position_of s client_ns) = false /\
    documentSettings (run position_of s client_ns) = ∅ /\
    forallb (fun o => negb (isGetConfiguration o))
            (outbox (run position_of s client_ns)) = true.
Proof.
  induction client_ns as [|[client n] ns IH]; intros s C E O; [auto|].
  cbn [run foldl fst snd].
  destruct (step_cache_incapable position_of client s n C E) as [C' E'].
  destruct (step_incapable_outbox client s n C) as (out & Ho & Hout).
  apply IH; [exact C'|exact E'|].
  rewrite Ho, forallb_app, O, Hout. reflexivity.
Qed.

(** X11. When the client's [initialize] parameters do not announce
    [workspace.configuration], the server does not register for
    configuration notifications and, whatever notifications follow, never
    sends a configuration request, never caches settings, and answers every
    settings lookup with the global settings. *)
Theorem no_request_without_capability params ns :
  (forall w,
      Lifecycle.workspace (Lifecycle.capabilities params) = Some w ->
      Lifecycle.configuration w <> Some true) ->
  ~ In Lifecycle.DidChangeConfigurationNotification
       (Lifecycle.onInitialized (fst (Lifecycle.onInitialize params))) /\
  forallb (fun o => negb (isGetConfiguration o))
          (outbox (run position_of (Lifecycle.start params) ns)) = true /\
  documentSettings (run position_of (Lifecycle.start params) ns) = ∅ /\
  (forall client uri,
      getDocumentSettings client
        (run position_of (Lifecycle.start params) ns) uri
      = (run position_of (Lifecycle.start params) ns,
         globalSettings (run position_of (Lifecycle.start params) ns))).
Proof.
  intros H.
  assert (F : Lifecycle.hasConfigurationCapability
                (fst (Lifecycle.onInitialize params)) = false).
  { unfold Lifecycle.onInitialize; simpl.
    destruct (Lifecycle.workspace (Lifecycle.capabilities params)) as [w|];
      [|reflexivity].
    specialize (H w eq_refl).
    destruct (Lifecycle.configuration w) as [[|]|]; try reflexivity.
    contradiction. }
  split.
  { unfold Lifecycle.onInitialized. rewrite F. intros E.
    apply in_app_or in E. destruct E as [E|E]; [exact E|].
    destruct (Lifecycle.hasWorkspaceFolderCapability
                (fst (Lifecycle.onInitialize params)));
      [destruct E as [E|E]; [discriminate|exact E]|exact E]. }
  unfold Lifecycle.start. rewrite F.
  destruct (run_incapable ns (initialized false) eq_refl eq_refl eq_refl)
    as (C & E & O).
  repeat split; try assumption.
  intros client uri. rewrite getDocumentSettings_unfold, C. reflexivity.
Qed.

(** The synced documents keep distinct URIs. *)
Lemma step_documents_NoDup client s n :
  NoDup (map fst (documents s)) ->
  NoDup (map fst (documents (step position_of client s n))).
Proof.
  intros N. destruct n as [uri text|uri text|uri|payload]; cbn [step].
  - destruct (onDidChangeContent_frame position_of client
                (withDocuments s (docSet uri text (documents s))) uri text)
      as (_ & _ & ->).
    apply docSet_NoDup, N.
  - destruct (docGet uri (documents s)); [|exact N].
    destruct (onDidChangeContent_frame position_of client
                (withDocuments s (docSet uri text (documents s))) uri text)
      as (_ & _ & ->).
    apply docSet_NoDup, N.
  - destruct (docGet uri (documents s)); [|exact N].
    apply docDelete_NoDup, N.
  - unfold onDidChangeConfiguration.
    match goal with
    | |- context [validateAll position_of client ?x] =>
        destruct (validateAll_cache position_of client x) as (_ & -> & _)
    end.
    destruct (hasConfigurationCapability s); exact N.
Qed.

End SessionProperties.

(** ** Opening and closing *)

Lemma docDelete_docSet_fresh uri text docs :
  docGet uri docs = None -> docDelete uri (docSet uri text docs) = docs.
Proof.
  intros G. unfold docSet. rewrite G. unfold docDelete.
  rewrite List.filter_app. simpl. rewrite String.eqb_refl. simpl.
  rewrite app_nil_r. clear text.
  induction docs as [|[u t] docs IH]; [reflexivity|].
  rewrite docGet_cons in G. simpl.
  destruct (String.eqb u uri); [discriminate|]. simpl. rewrite IH by exact G.
  reflexivity.
Qed.

(** X13. Opening a document that is neither open nor cached and closing it
    again leaves the documents, the cache and the settings as they were: the
    close deletes exactly what the open had added. Only the messages sent
    remain. *)
Theorem open_then_close_restores position_of client1 client2 s uri text :
  docGet uri (documents s) = None ->
  documentSettings s !! uri = None ->
  documents (step position_of client2
               (step position_of client1 s (DidOpenTextDocument uri text))
               (DidCloseTextDocument uri)) = documents s /\
  documentSettings (step position_of client2
                      (step position_of client1 s (DidOpenTextDocument uri text))
                      (DidCloseTextDocument uri)) = documentSettings s /\
  globalSettings (step position_of client2
                    (step position_of client1 s (DidOpenTextDocument uri text))
                    (DidCloseTextDocument uri)) = globalSettings s /\
  hasConfigurationCapability
    (step position_of client2
       (step position_of client1 s (DidOpenTextDocument uri text))
       (DidCloseTextDocument uri)) = hasConfigurationCapability s.
Proof.
  intros G L.
  set (s0 := withDocuments s (docSet uri text (documents s))).
  destruct (onDidChangeContent_frame position_of client1 s0 uri text)
    as (F1 & F2 & F3).
  pose proof (onDidChangeContent_cache position_of client1 s0 uri text) as F4.
  assert (F5 : documentSettings
                 (onDidChangeContent position_of client1 s0 uri text)
               !! uri = documentSettings s !! uri ->
               documentSettings
                 (onDidChangeContent position_of client1 s0 uri text)
               = documentSettings s).
  { rewrite onDidChangeContent_unfold, getDocumentSettings_unfold.
    subst s0. cbn [hasConfigurationCapability documentSettings withDocuments].
    destruct (hasConfigurationCapability s); [|reflexivity].
    rewrite L. cbn. rewrite lookup_insert_eq. discriminate. }
  assert (F6 : delete uri (documentSettings
                 (onDidChangeContent position_of client1 s0 uri text))
               = documentSettings s).
  { rewrite onDidChangeContent_unfold, getDocumentSettings_unfold.
    subst s0. cbn [hasConfigurationCapability documentSettings withDocuments].
    destruct (hasConfigurationCapability s).
    - rewrite L. cbn. rewrite delete_insert_eq. apply delete_id, L.
    - cbn. apply delete_id, L. }
  clear F4 F5. cbn [step]. fold s0. rewrite F3. subst s0.
  cbn [documents withDocuments]. rewrite docGet_docSet, String.eqb_refl.
  cbn [onDidClose withDocuments withDocumentSettings documents
       documentSettings globalSettings hasConfigurationCapability].
  rewrite docDelete_docSet_fresh by exact G.
  rewrite F6, F2, F1. auto.
Qed.

(** ** Initialization and completion *)

(** X14. Whatever the client's parameters are, the answer to [initialize]
    announces incremental synchronisation and completion with resolve
    support. Workspace folders are announced exactly when the client
    announced them, and exactly then [onInitialized] installs the
    workspace-folder listener; the registration for configuration
    notifications is made exactly when sessions use the settings cache. *)
Theorem initialize_announces params :
  Lifecycle.textDocumentSync (snd (Lifecycle.onInitialize params))
  = Lifecycle.Incremental /\
  Lifecycle.completionProvider (snd (Lifecycle.onInitialize params))
  = Some true /\
  (Lifecycle.workspaceFoldersSupported (snd (Lifecycle.onInitialize params))
   = Some true <->
   exists w, Lifecycle.workspace (Lifecycle.capabilities params) = Some w /\
             Lifecycle.workspaceFolders w = Some true) /\
  (Lifecycle.workspaceFoldersSupported (snd (Lifecycle.onInitialize params))
   = Some true <->
   In Lifecycle.WorkspaceFoldersListener
      (Lifecycle.onInitialized (fst (Lifecycle.onInitialize params)))) /\
  (hasConfigurationCapability (Lifecycle.start params) = true <->
   In Lifecycle.DidChangeConfigurationNotification
      (Lifecycle.onInitialized (fst (Lifecycle.onInitialize params)))).
Proof.
  unfold Lifecycle.start, Lifecycle.onInitialized, Lifecycle.onInitialize.
  cbn [fst snd Lifecycle.textDocumentSync Lifecycle.completionProvider
       Lifecycle.workspaceFoldersSupported Lifecycle.hasConfigurationCapability
       Lifecycle.hasWorkspaceFolderCapability initialized
       hasConfigurationCapability].
  split; [reflexivity|]. split; [reflexivity|].
  destruct (Lifecycle.workspace (Lifecycle.capabilities params)) as [w|].
  - destruct (Lifecycle.configuration w) as [[|]|] eqn:Cw;
      destruct (Lifecycle.workspaceFolders w) as [[|]|] eqn:Fw; cbn;
      repeat split; intros;
      repeat match goal with
             | H : exists _, _ |- _ =>
                 let E := fresh in
                 destruct H as (? & E & ?); injection E as <-
             | H : _ \/ _ |- _ => destruct H
             end;
      try discriminate; try congruence; try contradiction; try tauto;
      try (exists w; split; [reflexivity|assumption]).
  - cbn. repeat split; intros;
      repeat match goal with
             | H : exists _, _ |- _ => destruct H as (? & ? & ?)
             end; try discriminate; try contradiction.
Qed.

(** X15. The completion list offers some labels twice, [Disp] among them;
    every entry has a kind and a non-empty label and nothing else. *)
Theorem completion_labels_repeat params :
  ~ NoDup (map label (onCompletion params)) /\
  count_occ string_dec (map label (onCompletion params)) "Disp" = 2 /\
  forallb (fun i => negb (String.eqb (label i) "")
                    && match kind i with Some _ => true | None => false end
                    && match detail i, documentation i with
                       | None, None => true
                       | _, _ => false
                       end)
          (onCompletion params) = true.
Proof.
  assert (C : count_occ string_dec (map label (onCompletion params)) "Disp" = 2)
    by (vm_compute; reflexivity).
  split; [|split; [exact C|vm_compute; reflexivity]].
  intros N. apply NoDup_ListNoDup in N.
  rewrite (NoDup_count_occ string_dec) in N. specialize (N "Disp"). lia.
Qed.

(** ** The further properties on concrete inputs *)

Lemma operator_matches_characterised_witness :
  In (2, 5) (allMatches operatorPattern (utf16 "AB + CD")).
Proof.
  apply (operator_matches_characterised (utf16 "AB + CD") 2 5).
  exists 1. repeat split.
Defined.

Lemma uppercase_matches_characterised_witness :
  In (5, 7) (allMatches uppercasePattern (utf16 "AB + CD")).
Proof.
  apply (uppercase_matches_characterised (utf16 "AB + CD") 5 7).
  exists 2. repeat split.
Defined.

Lemma error_spans_five_units_witness :
  exists j,
    flankedOperatorAt (utf16 "AB + CD") j = true /\
    j + 5 <= length (utf16 "AB + CD").
Proof.
  destruct (error_spans_five_units lineColumn defaultSettings (utf16 "AB + CD")
              (diagnosticOf lineColumn Error (utf16 "AB + CD") 2 5))
    as (j & F & L & _).
  - left. reflexivity.
  - exists j. split; [exact F|exact L].
Defined.

Lemma warning_names_uppercase_word_witness :
  exists i n, uppercaseWordAt (utf16 "AB + CD") i n = true.
Proof.
  destruct (warning_names_uppercase_word lineColumn defaultSettings
              (utf16 "AB + CD")
              (diagnosticOf lineColumn Warning (utf16 "AB + CD") 0 2))
    as (i & n & F & _).
  - left. reflexivity.
  - exists i, n. exact F.
Defined.

Lemma cached_settings_are_reused_witness :
  getDocumentSettings (fun _ => defaultSettings)
    (fst (getDocumentSettings fiveProblems sampleServer "c.8xp")) "c.8xp"
  = (fst (getDocumentSettings fiveProblems sampleServer "c.8xp"),
     snd (getDocumentSettings fiveProblems sampleServer "c.8xp")).
Proof.
  apply (cached_settings_are_reused fiveProblems (fun _ => defaultSettings)
           sampleServer "c.8xp").
  reflexivity.
Defined.

Lemma content_change_effect_witness :
  documentSettings
    (onDidChangeContent lineColumn fiveProblems sampleServer "c.8xp"
       (utf16 "1 + 2")) !! "a.8xp"
  = documentSettings sampleServer !! "a.8xp".
Proof.
  destruct (content_change_effect lineColumn fiveProblems sampleServer "c.8xp"
              (utf16 "1 + 2") defaultSettings) as (_ & _ & _ & F).
  apply F. discriminate.
Defined.

Lemma configuration_change_without_capability_witness :
  globalSettings
    (onDidChangeConfiguration lineColumn fiveProblems incapableServer
       (Some {| maxNumberOfProblems := 1 |}))
  = {| maxNumberOfProblems := 1 |}.
Proof.
  rewrite (configuration_change_without_capability lineColumn fiveProblems
             incapableServer (Some {| maxNumberOfProblems := 1 |}));
    reflexivity.
Defined.

Lemma configuration_change_with_capability_witness :
  documentSettings
    (onDidChangeConfiguration lineColumn fiveProblems sampleServer None)
    !! "a.8xp" = Some (fiveProblems "a.8xp").
Proof.
  destruct (configuration_change_with_capability lineColumn fiveProblems
              sampleServer None) as (_ & F & _).
  - reflexivity.
  - simpl. apply NoDup_cons. split.
    + intros H. apply list_elem_of_singleton in H. discriminate.
    + apply NoDup_singleton.
  - rewrite F. apply decide_True. apply list_elem_of_here.
Defined.

Lemma no_request_without_capability_witness :
  documentSettings
    (run lineColumn (Lifecycle.start noWorkspace)
         [(fiveProblems, DidOpenTextDocument "a.8xp" (utf16 "AB + CD"))]) = ∅.
Proof.
  destruct (no_request_without_capability lineColumn noWorkspace
              [(fiveProblems, DidOpenTextDocument "a.8xp" (utf16 "AB + CD"))])
    as (_ & _ & E & _).
  - intros w H. discriminate.
  - exact E.
Defined.

Lemma open_then_close_restores_witness :
  documentSettings
    (step lineColumn fiveProblems
       (step lineColumn fiveProblems sampleServer
             (DidOpenTextDocument "c.8xp" (utf16 "1 + 2")))
       (DidCloseTextDocument "c.8xp"))
  = documentSettings sampleServer.
Proof.
  destruct (open_then_close_restores lineColumn fiveProblems fiveProblems
              sampleServer "c.8xp" (utf16 "1 + 2")) as (_ & E & _).
  - reflexivity.
  - reflexivity.
  - exact E.
Defined.

Lemma initialize_announces_witness :
  Lifecycle.workspaceFoldersSupported
    (snd (Lifecycle.onInitialize
            {| Lifecycle.capabilities :=
                 {| Lifecycle.workspace :=
                      Some {| Lifecycle.configuration := Some true;
                              Lifecycle.workspaceFolders := Some true |};
                    Lifecycle.textDocument := None |} |}))
  = Some true.
Proof.
  destruct (initialize_announces
              {| Lifecycle.capabilities :=
                   {| Lifecycle.workspace :=
                        Some {| Lifecycle.configuration := Some true;
                                Lifecycle.workspaceFolders := Some true |};
                      Lifecycle.textDocument := None |} |})
    as (_ & _ & [_ F] & _).
  apply F. eexists. split; reflexivity.
Defined.

(** ** Publications *)


Section Publications.

Variable position_of : list Z -> nat -> Position.











End Publications.



(** The scans of "AB + CD" match by match: the error of the match 2 to 5
    runs from offset 1 to offset 6, the warning of the match 0 to 2 from
    the clamped offset -1 to offset 3. *)
Example AB_plus_CD_ranges :
  firstn 1000 (allMatches operatorPattern (utf16 "AB + CD")) = [(2, 5)] /\
  map range (changeContentDiagnostics lineColumn defaultSettings
               (utf16 "AB + CD"))
  = [{| start := {| line := 0; character := 1 |};
        end_ := {| line := 0; character := 6 |} |}] /\
  allMatches uppercasePattern (utf16 "AB + CD") = [(0, 2); (5, 7)] /\
  map range (validateDiagnostics lineColumn defaultSettings (utf16 "AB + CD"))
  = [{| start := {| line := 0; character := 0 |};
        end_ := {| line := 0; character := 3 |} |};
     {| start := {| line := 0; character := 4 |};
        end_ := {| line := 0; character := 7 |} |}].
Proof. repeat split. Qed.

(** [lineColumn] on a text with a carriage return and line feed: the offset
    between the two belongs to the first line, before its break. *)
Example lineColumn_between_CR_LF :
  lineColumn [97; 13; 10; 98]%Z 2 = {| line := 0; character := 1 |} /\
  lineColumn [97; 13; 10; 98]%Z 3 = {| line := 1; character := 0 |} /\
  lineColumn [97; 13; 10; 98]%Z 1 = {| line := 0; character := 1 |}.
Proof. repeat split. Qed.
